(** * Entrust IdentityGuard TOTP secret derivation and otpauth URI encoding

    A shallow embedding of [src/entrust-totp.js]: the Node CLI functions
    (module [Node]) and the browser functions appended to the same file
    (module [Browser]), together with the platform primitives they call
    (module [JS]: [String.prototype.replace], [slice], [BigInt], [parseInt],
    Buffer writes, UTF-8 encoding, [encodeURIComponent], [URLSearchParams])
    and the PBKDF2-HMAC-SHA-256 key derivation behind [crypto.pbkdf2Sync]
    and WebCrypto [deriveBits] (module [Crypto]).

    Representation choices:
    - a byte is a [Z] in [0, 256), a byte buffer is a [list Z];
    - a JS string is a [list Z] of UTF-16 code units (each in [0, 65536));
    - a thrown exception is a [Throw] of [result]. *)

From Stdlib Require Import String Ascii ZArith List Lia Bool.
Import ListNotations.
Open Scope Z_scope.

Definition bytes := list Z.

(** ** Crypto: SHA-256, HMAC-SHA-256 and PBKDF2 (FIPS 180-4, RFC 2104, RFC 8018) *)
Module Crypto.

Definition mask32 (x : Z) : Z := Z.land x (Z.ones 32).
Definition add32 (x y : Z) : Z := mask32 (x + y).
Definition rotr (x : Z) (n : Z) : Z :=
  Z.lor (Z.shiftr x n) (mask32 (Z.shiftl x (32 - n))).

Definition K : list Z :=
  [1116352408; 1899447441; 3049323471; 3921009573; 961987163; 1508970993;
   2453635748; 2870763221; 3624381080; 310598401; 607225278; 1426881987;
   1925078388; 2162078206; 2614888103; 3248222580; 3835390401; 4022224774;
   264347078; 604807628; 770255983; 1249150122; 1555081692; 1996064986;
   2554220882; 2821834349; 2952996808; 3210313671; 3336571891; 3584528711;
   113926993; 338241895; 666307205; 773529912; 1294757372; 1396182291;
   1695183700; 1986661051; 2177026350; 2456956037; 2730485921; 2820302411;
   3259730800; 3345764771; 3516065817; 3600352804; 4094571909; 275423344;
   430227734; 506948616; 659060556; 883997877; 958139571; 1322822218;
   1537002063; 1747873779; 1955562222; 2024104815; 2227730452; 2361852424;
   2428436474; 2756734187; 3204031479; 3329325298].

Definition H0 : list Z :=
  [1779033703; 3144134277; 1013904242; 2773480762; 1359893119; 2600822924;
   528734635; 1541459225].

(** Big-endian [n]-byte encoding of [v] (its low [8 n] bits). *)
Fixpoint be_encode (n : nat) (v : Z) : bytes :=
  match n with
  | O => []
  | S n' => be_encode n' (Z.shiftr v 8) ++ [Z.land v 255]
  end.

Fixpoint be_decode (l : bytes) (acc : Z) : Z :=
  match l with
  | [] => acc
  | b :: l' => be_decode l' (acc * 256 + b)
  end.

Definition pad (msg : bytes) : bytes :=
  let len := Z.of_nat (length msg) in
  let k := Z.to_nat ((55 - len) mod 64) in
  msg ++ [0x80] ++ repeat 0 k ++ be_encode 8 (8 * len).

Fixpoint words (fuel : nat) (l : bytes) : list Z :=
  match fuel with
  | O => []
  | S f => match l with
           | [] => []
           | _ => be_decode (firstn 4 l) 0 :: words f (skipn 4 l)
           end
  end.

Definition sigma0 x := Z.lxor (Z.lxor (rotr x 7) (rotr x 18)) (Z.shiftr x 3).
Definition sigma1 x := Z.lxor (Z.lxor (rotr x 17) (rotr x 19)) (Z.shiftr x 10).
Definition Sigma0 x := Z.lxor (Z.lxor (rotr x 2) (rotr x 13)) (rotr x 22).
Definition Sigma1 x := Z.lxor (Z.lxor (rotr x 6) (rotr x 11)) (rotr x 25).
Definition Ch x y z := Z.lxor (Z.land x y) (Z.land (Z.lxor x (Z.ones 32)) z).
Definition Maj x y z := Z.lxor (Z.lxor (Z.land x y) (Z.land x z)) (Z.land y z).

(** Message schedule, kept in reverse: the head is the latest word. *)
Fixpoint schedule (n : nat) (rw : list Z) : list Z :=
  match n with
  | O => rw
  | S n' =>
      let w t := nth t rw 0 in
      let next := add32 (add32 (sigma1 (w 1%nat)) (w 6%nat))
                        (add32 (sigma0 (w 14%nat)) (w 15%nat)) in
      schedule n' (next :: rw)
  end.

Fixpoint rounds (ks ws : list Z) (st : list Z) : list Z :=
  match ks, ws, st with
  | k :: ks', w :: ws', [a; b; c; d; e; f; g; h] =>
      let t1 := add32 (add32 (add32 h (Sigma1 e)) (add32 (Ch e f g) k)) w in
      let t2 := add32 (Sigma0 a) (Maj a b c) in
      rounds ks' ws' [add32 t1 t2; a; b; c; add32 d t1; e; f; g]
  | _, _, _ => st
  end.

Definition compress (hs : list Z) (block : bytes) : list Z :=
  let ws := rev (schedule 48 (rev (words 16 block))) in
  map (fun p => add32 (fst p) (snd p)) (combine hs (rounds K ws hs)).

Fixpoint blocks (fuel : nat) (hs : list Z) (l : bytes) : list Z :=
  match fuel with
  | O => hs
  | S f => match l with
           | [] => hs
           | _ => blocks f (compress hs (firstn 64 l)) (skipn 64 l)
           end
  end.

Definition sha256 (msg : bytes) : bytes :=
  let p := pad msg in
  flat_map (be_encode 4) (blocks (length p) H0 p).

Definition xor_bytes (a b : bytes) : bytes := map (fun p => Z.lxor (fst p) (snd p)) (combine a b).

Definition hmac_sha256 (key msg : bytes) : bytes :=
  let k := if Nat.ltb 64 (length key) then sha256 key else key in
  let k0 := k ++ repeat 0 (64 - length k) in
  sha256 (xor_bytes k0 (repeat 0x5c 64) ++ sha256 (xor_bytes k0 (repeat 0x36 64) ++ msg)).

Fixpoint pbkdf2_iter (password : bytes) (n : nat) (u acc : bytes) : bytes :=
  match n with
  | O => acc
  | S n' => let u' := hmac_sha256 password u in pbkdf2_iter password n' u' (xor_bytes acc u')
  end.

Definition pbkdf2_block (password salt : bytes) (c : nat) (i : Z) : bytes :=
  let u1 := hmac_sha256 password (salt ++ be_encode 4 i) in
  pbkdf2_iter password (Nat.pred c) u1 u1.

(** PBKDF2 with PRF HMAC-SHA-256, [c] iterations, [dklen] output bytes. *)
Definition pbkdf2_hmac_sha256 (password salt : bytes) (c dklen : nat) : bytes :=
  let nblocks := Nat.div (dklen + 31) 32 in
  firstn dklen (flat_map (fun i => pbkdf2_block password salt c (Z.of_nat i)) (seq 1 nblocks)).

End Crypto.

(** ** JS: the platform primitives the code calls *)

(** A call either returns a value or throws one of the JS errors it can raise. *)
Inductive js_error := SyntaxError | RangeError | URIError.

Inductive result (A : Type) := Ok (a : A) | Throw (e : js_error).
Arguments Ok {A} a.
Arguments Throw {A} e.

Definition bind {A B} (m : result A) (k : A -> result B) : result B :=
  match m with Ok a => k a | Throw e => Throw e end.

Notation "'let*' x ':=' m 'in' k" := (bind m (fun x => k))
  (at level 200, x name, m at level 100, k at level 200).

Module JS.

(** A JS string: its UTF-16 code units. *)
Definition jsstr := list Z.

(** String literals of the source (all ASCII). *)
Definition js (s : string) : jsstr :=
  map (fun a => Z.of_nat (nat_of_ascii a)) (list_ascii_of_string s).

Definition is_digit (c : Z) : bool := (48 <=? c) && (c <=? 57).

(** [input.replace(/-/g, '')] *)
Definition replace_hyphens (input : jsstr) : jsstr := filter (fun c => negb (c =? 45)) input.

(** [s.slice(0, -1)]: from 0 to [max(len - 1, 0)]. *)
Definition slice_drop_last (s : jsstr) : jsstr := firstn (length s - 1) s.

(** StrWhiteSpaceChar: WhiteSpace and LineTerminator code units. *)
Definition is_js_whitespace (c : Z) : bool :=
  existsb (Z.eqb c)
    [0x09; 0x0A; 0x0B; 0x0C; 0x0D; 0x20; 0xA0; 0x1680; 0x2028; 0x2029;
     0x202F; 0x205F; 0x3000; 0xFEFF]
  || ((0x2000 <=? c) && (c <=? 0x200A)).

Fixpoint trim_start (s : jsstr) : jsstr :=
  match s with
  | c :: r => if is_js_whitespace c then trim_start r else s
  | [] => []
  end.

Definition trim (s : jsstr) : jsstr := rev (trim_start (rev (trim_start s))).

(** Value of a code unit as a digit in radix [r] (2..36), if it is one. *)
Definition radix_digit (r c : Z) : option Z :=
  let d := if is_digit c then c - 48
           else if (97 <=? c) && (c <=? 122) then c - 87
           else if (65 <=? c) && (c <=? 90) then c - 55
           else 99 in
  if d <? r then Some d else None.

Fixpoint digits_acc (r : Z) (l : jsstr) (acc : Z) : option Z :=
  match l with
  | [] => Some acc
  | c :: l' => match radix_digit r c with
               | Some d => digits_acc r l' (acc * r + d)
               | None => None
               end
  end.

(** The value of a non-empty string of radix-[r] digits. *)
Definition digits_value (r : Z) (l : jsstr) : option Z :=
  match l with [] => None | _ => digits_acc r l 0 end.

Definition signed_decimal (t : jsstr) : option Z :=
  match t with
  | c :: rest =>
      if c =? 43 then digits_value 10 rest
      else if c =? 45 then option_map Z.opp (digits_value 10 rest)
      else digits_value 10 t
  | [] => None
  end.

(** StringToBigInt: StringIntegerLiteral after trimming white space;
    the empty string is [0n]; [0x]/[0o]/[0b] prefixes select a radix. *)
Definition StringToBigInt (s : jsstr) : option Z :=
  let t := trim s in
  match t with
  | [] => Some 0
  | c0 :: c1 :: rest =>
      if c0 =? 48 then
        if (c1 =? 120) || (c1 =? 88) then digits_value 16 rest
        else if (c1 =? 111) || (c1 =? 79) then digits_value 8 rest
        else if (c1 =? 98) || (c1 =? 66) then digits_value 2 rest
        else signed_decimal t
      else signed_decimal t
  | _ => signed_decimal t
  end.

(** [BigInt(s)] for a string [s]: SyntaxError when it is not an integer literal. *)
Definition BigInt (s : jsstr) : result Z :=
  match StringToBigInt s with Some v => Ok v | None => Throw SyntaxError end.

(** The Numbers the code handles come out of [parseInt]: NaN, an
    integer-valued double [Num z], or an infinity ([-0] is [Num 0], which
    every use below treats as [+0]). *)
Inductive number := NaN | Num (z : Z) | Infinity (negative : bool).

(** The double nearest to an integer [m >= 0], ties to even: [m] itself
    below 2^53, else [m] rounded to 53 significant bits. *)
Definition round_double (m : Z) : Z :=
  if m <? 2 ^ 53 then m else
  let sh := Z.log2 m - 52 in
  let q := Z.shiftr m sh in
  let r := m - Z.shiftl q sh in
  let half := 2 ^ (sh - 1) in
  let q' := if (half <? r) || ((r =? half) && Z.odd q) then q + 1 else q in
  q' * 2 ^ sh.

(** The Number value for the integer [z] (the spec's 𝔽): a magnitude that
    rounds to 2^1024 or more is an infinity. *)
Definition to_number (z : Z) : number :=
  let m := round_double (Z.abs z) in
  if 2 ^ 1024 <=? m then Infinity (z <? 0) else Num (Z.sgn z * m).

Fixpoint take_while (p : Z -> bool) (l : jsstr) : jsstr :=
  match l with
  | c :: r => if p c then c :: take_while p r else []
  | [] => []
  end.

(** [parseInt(s)] with the radix omitted; the value of the digits is
    rounded to a double, correctly for any number of digits as V8 does. *)
Definition parseInt (s : jsstr) : number :=
  let s1 := trim_start s in
  let '(sign, s2) :=
    match s1 with
    | c :: r => if c =? 45 then (-1, r) else if c =? 43 then (1, r) else (1, s1)
    | [] => (1, [])
    end in
  let '(radix, s3) :=
    match s2 with
    | c0 :: c1 :: r => if (c0 =? 48) && ((c1 =? 120) || (c1 =? 88)) then (16, r) else (10, s2)
    | _ => (10, s2)
    end in
  let z := take_while (fun c => match radix_digit radix c with Some _ => true | None => false end) s3 in
  match digits_value radix z with
  | None => NaN
  | Some v => to_number (sign * v)
  end.

Definition ToInt32 (z : Z) : Z :=
  let m := z mod 2 ^ 32 in if 2 ^ 31 <=? m then m - 2 ^ 32 else m.
Definition ToUint32 (z : Z) : Z := z mod 2 ^ 32.
(** Storing into a Uint8Array element. *)
Definition ToUint8 (z : Z) : Z := z mod 256.
(** NaN and the infinities convert to 0. *)
Definition num_ToUint8 (v : number) : Z := match v with Num z => ToUint8 z | _ => 0 end.
Definition num_ToUint32 (v : number) : Z := match v with Num z => ToUint32 z | _ => 0 end.
Definition num_ToInt32 (v : number) : Z := match v with Num z => ToInt32 z | _ => 0 end.

(** [buf[i] = v] on a typed array: out-of-range indices are ignored. *)
Fixpoint set_index (buf : bytes) (i : nat) (v : Z) : bytes :=
  match buf, i with
  | [], _ => []
  | _ :: t, O => v :: t
  | h :: t, S i' => h :: set_index t i' v
  end.

(** [Buffer.alloc(n)] *)
Definition Buffer_alloc (n : nat) : bytes := repeat 0 n.

(** Node's [checkBounds]: the bytes [offset .. offset + byteLength] must exist. *)
Definition checkBounds (buf : bytes) (offset byteLength : nat) : result unit :=
  if Nat.ltb (offset + byteLength) (length buf) then Ok tt else Throw RangeError.

(** Node's [writeBigU_Int64BE] (behind [buf.writeBigUInt64BE(value, offset)]). *)
Definition writeBigUInt64BE (buf : bytes) (value : Z) (offset : nat) : result bytes :=
  if (value >? 0xffffffffffffffff) || (value <? 0) then Throw RangeError else
  let* _ := checkBounds buf offset 7 in
  let lo := Z.land value 0xffffffff in
  let buf := set_index buf (offset + 7) (ToUint8 lo) in
  let lo := Z.shiftr (ToInt32 lo) 8 in
  let buf := set_index buf (offset + 6) (ToUint8 lo) in
  let lo := Z.shiftr (ToInt32 lo) 8 in
  let buf := set_index buf (offset + 5) (ToUint8 lo) in
  let lo := Z.shiftr (ToInt32 lo) 8 in
  let buf := set_index buf (offset + 4) (ToUint8 lo) in
  let hi := Z.land (Z.shiftr value 32) 0xffffffff in
  let buf := set_index buf (offset + 3) (ToUint8 hi) in
  let hi := Z.shiftr (ToInt32 hi) 8 in
  let buf := set_index buf (offset + 2) (ToUint8 hi) in
  let hi := Z.shiftr (ToInt32 hi) 8 in
  let buf := set_index buf (offset + 1) (ToUint8 hi) in
  let hi := Z.shiftr (ToInt32 hi) 8 in
  Ok (set_index buf offset (ToUint8 hi)).

(** Node's [writeU_Int32BE] (behind [buf.writeUInt32BE(value, offset)]):
    [checkInt] compares with [>] and [<], which are false for NaN. *)
Definition writeUInt32BE (buf : bytes) (value : number) (offset : nat) : result bytes :=
  let out_of_range := match value with
                      | NaN => false
                      | Num z => (z >? 0xffffffff) || (z <? 0)
                      | Infinity _ => true
                      end in
  if out_of_range then Throw RangeError else
  let* _ := checkBounds buf offset 3 in
  let buf := set_index buf (offset + 3) (num_ToUint8 value) in
  let value := Z.shiftr (num_ToUint32 value) 8 in
  let buf := set_index buf (offset + 2) (ToUint8 value) in
  let value := Z.shiftr (ToUint32 value) 8 in
  let buf := set_index buf (offset + 1) (ToUint8 value) in
  let value := Z.shiftr (ToUint32 value) 8 in
  Ok (set_index buf offset (ToUint8 value)).

(** [buf.subarray(start, end)] *)
Definition subarray (buf : bytes) (start stop : nat) : bytes :=
  firstn (stop - start) (skipn start buf).

Definition is_high_surrogate (c : Z) : bool := (0xD800 <=? c) && (c <=? 0xDBFF).
Definition is_low_surrogate (c : Z) : bool := (0xDC00 <=? c) && (c <=? 0xDFFF).
Definition pair_code_point (hi lo : Z) : Z := 0x10000 + (hi - 0xD800) * 0x400 + (lo - 0xDC00).

(** Code points of a string, an unpaired surrogate read as U+FFFD
    (the USVString conversion). *)
Fixpoint code_points (s : jsstr) : list Z :=
  match s with
  | [] => []
  | c :: rest =>
      if is_high_surrogate c then
        match rest with
        | d :: rest' => if is_low_surrogate d then pair_code_point c d :: code_points rest'
                        else 0xFFFD :: code_points rest
        | [] => [0xFFFD]
        end
      else if is_low_surrogate c then 0xFFFD :: code_points rest
      else c :: code_points rest
  end.

Definition utf8_of_code_point (cp : Z) : bytes :=
  if cp <? 0x80 then [cp]
  else if cp <? 0x800 then [0xC0 + Z.shiftr cp 6; 0x80 + Z.land cp 63]
  else if cp <? 0x10000 then
    [0xE0 + Z.shiftr cp 12; 0x80 + Z.land (Z.shiftr cp 6) 63; 0x80 + Z.land cp 63]
  else [0xF0 + Z.shiftr cp 18; 0x80 + Z.land (Z.shiftr cp 12) 63;
        0x80 + Z.land (Z.shiftr cp 6) 63; 0x80 + Z.land cp 63].

(** UTF-8 encoding: [Buffer.from(s, 'utf-8')] and [new TextEncoder().encode(s)]. *)
Definition utf8_encode (s : jsstr) : bytes := flat_map utf8_of_code_point (code_points s).

End JS.

(** ** JS, continued: URI encoding and Base32 *)
Module URI.
Import JS.

Definition hex_upper (d : Z) : Z := if d <? 10 then 48 + d else 55 + d.
Definition percent_byte (b : Z) : jsstr := [37; hex_upper (Z.shiftr b 4); hex_upper (Z.land b 15)].

Definition is_alnum (c : Z) : bool :=
  is_digit c || ((65 <=? c) && (c <=? 90)) || ((97 <=? c) && (c <=? 122)).

(** uriUnreserved: alphanumerics and [- _ . ! ~ * ' ( )]. *)
Definition uri_unreserved (c : Z) : bool :=
  is_alnum c || existsb (Z.eqb c) [45; 95; 46; 33; 126; 42; 39; 40; 41].

(** [s.isWellFormed()]: no unpaired surrogate. *)
Fixpoint isWellFormed (s : jsstr) : bool :=
  match s with
  | [] => true
  | c :: rest =>
      if is_high_surrogate c then
        match rest with
        | d :: rest' => is_low_surrogate d && isWellFormed rest'
        | [] => false
        end
      else if is_low_surrogate c then false
      else isWellFormed rest
  end.

(** [encodeURIComponent(s)]: URIError on an unpaired surrogate. *)
Fixpoint encodeURIComponent (s : jsstr) : result jsstr :=
  match s with
  | [] => Ok []
  | c :: rest =>
      if uri_unreserved c then
        let* r := encodeURIComponent rest in Ok (c :: r)
      else if is_low_surrogate c then Throw URIError
      else if is_high_surrogate c then
        match rest with
        | d :: rest' =>
            if is_low_surrogate d then
              let* r := encodeURIComponent rest' in
              Ok (flat_map percent_byte (utf8_of_code_point (pair_code_point c d)) ++ r)
            else Throw URIError
        | [] => Throw URIError
        end
      else
        let* r := encodeURIComponent rest in
        Ok (flat_map percent_byte (utf8_of_code_point c) ++ r)
  end.

(** The application/x-www-form-urlencoded byte serializer: alphanumerics
    and [* - . _] kept, space as [+], every other byte percent-encoded. *)
Definition form_byte (b : Z) : jsstr :=
  if b =? 32 then [43]
  else if is_alnum b || existsb (Z.eqb b) [42; 45; 46; 95] then [b]
  else percent_byte b.

Definition form_urlencode (s : jsstr) : jsstr := flat_map form_byte (utf8_encode s).

Fixpoint join_amp (l : list jsstr) : jsstr :=
  match l with
  | [] => []
  | [x] => x
  | x :: r => x ++ [38] ++ join_amp r
  end.

(** [new URLSearchParams(record).toString()]: the pairs in the record's
    key order, [name=value] joined by [&]. *)
Definition URLSearchParams_toString (pairs : list (jsstr * jsstr)) : jsstr :=
  join_amp (map (fun p => form_urlencode (fst p) ++ [61] ++ form_urlencode (snd p)) pairs).

End URI.

Module Base32.
Import JS.

Definition alphabet : jsstr := js "ABCDEFGHIJKLMNOPQRSTUVWXYZ234567".

(** [alphabet[i]]; every index the loop uses is masked with [& 31]. *)
Definition alphabet_at (i : Z) : Z := nth (Z.to_nat i) alphabet 0.

(** [while (bits >= 5) { result += alphabet[(value >>> (bits - 5)) & 31]; bits -= 5; }]
    ([bits] is decreased by 5 per turn, so [bits] turns are enough). *)
Fixpoint drain (fuel : nat) (value bits : Z) (result : jsstr) : jsstr * Z :=
  match fuel with
  | O => (result, bits)
  | S f =>
      if 5 <=? bits then
        drain f value (bits - 5)
          (result ++ [alphabet_at (Z.land (Z.shiftr (ToUint32 value) (bits - 5)) 31)])
      else (result, bits)
  end.

(** The [for] loop over the bytes; state [(result, bits, value)]. *)
Fixpoint encode_loop (data : bytes) (result : jsstr) (bits value : Z) : jsstr * Z * Z :=
  match data with
  | [] => (result, bits, value)
  | d :: rest =>
      let value := Z.lor (ToInt32 (Z.shiftl (ToInt32 value) 8)) d in
      let bits := bits + 8 in
      let '(result, bits) := drain (Z.to_nat bits) value bits result in
      encode_loop rest result bits value
  end.

(** [base32Encode(data)] of the browser code. *)
Definition base32Encode (data : bytes) : jsstr :=
  let '(result, bits, value) := encode_loop data [] 0 0 in
  if 0 <? bits then result ++ [alphabet_at (Z.land (ToInt32 (Z.shiftl (ToInt32 value) (5 - bits))) 31)]
  else result.

(** The [base32-encode] package used by the Node code,
    [base32Encode(data, 'RFC4648', { padding })]: the same loop over the
    RFC 4648 alphabet, then ['='] up to a multiple of 8 when [padding] holds. *)
Definition base32Encode_package (data : bytes) (padding : bool) : jsstr :=
  let output := base32Encode data in
  if padding then output ++ repeat 61 ((8 - length output mod 8) mod 8) else output.

End Base32.

(** ** The Node CLI code (top of [src/entrust-totp.js]) *)
Module Node.
Import JS URI.

Definition parseCode (input : jsstr) : jsstr := replace_hyphens input.

(** [crypto.pbkdf2Sync(password, salt, iterations, keylen, 'sha256')] *)
Definition pbkdf2Sync (password salt : bytes) (iterations keylen : nat) : bytes :=
  Crypto.pbkdf2_hmac_sha256 password salt iterations keylen.

(** [generateOtpSecret] up to the key-derivation call: the password and the
    salt it hands to [pbkdf2Sync]. *)
Definition otpSecretKdfInputs (serial activationCode registrationCode policy : jsstr)
  : result (bytes * bytes) :=
  let cleanSerial := parseCode serial in
  let cleanActivation := parseCode activationCode in
  let cleanRegistration := parseCode registrationCode in
  let activationWithoutCheck := slice_drop_last cleanActivation in
  let registrationWithoutCheck := slice_drop_last cleanRegistration in
  let* activationNum := BigInt activationWithoutCheck in
  let* activationBytes := writeBigUInt64BE (Buffer_alloc 8) activationNum 0 in
  let activationBytes7 := subarray activationBytes 1 (length activationBytes) in
  let registrationNum := parseInt registrationWithoutCheck in
  let* registrationBytes := writeUInt32BE (Buffer_alloc 4) registrationNum 0 in
  let rngBytes := subarray registrationBytes 2 4 in
  let password := activationBytes7 ++ rngBytes in
  let password := if Nat.ltb 0 (length policy) then password ++ utf8_encode policy else password in
  let salt := utf8_encode cleanSerial in
  Ok (password, salt).

Definition generateOtpSecret (serial activationCode registrationCode policy : jsstr) : result bytes :=
  let* kdfInputs := otpSecretKdfInputs serial activationCode registrationCode policy in
  let '(password, salt) := kdfInputs in
  Ok (pbkdf2Sync password salt 8 16).

Definition generateOtpauthUri (issuer accountName : jsstr) (secretBuffer : bytes) : result jsstr :=
  let secret := Base32.base32Encode_package secretBuffer false in
  let* label := encodeURIComponent (issuer ++ js ":" ++ accountName) in
  let params := [(js "secret", secret); (js "issuer", issuer); (js "algorithm", js "SHA256");
                 (js "digits", js "6"); (js "period", js "30")] in
  Ok (js "otpauth://totp/" ++ label ++ js "?" ++ URLSearchParams_toString params).

End Node.

(** ** The browser code (appended to [src/entrust-totp.js]) *)
Module Browser.
Import JS URI.

Definition parseCode (input : jsstr) : jsstr := replace_hyphens input.

Definition stringToUtf8Bytes (str : jsstr) : bytes := utf8_encode str.

(** [for (let i = byteLength - 1; i >= 0; i--) { bytes[i] = Number(num & 0xFFn); num = num >> 8n; }] *)
Fixpoint bigIntToBytes_loop (i : nat) (num : Z) (arr : bytes) : bytes :=
  match i with
  | O => arr
  | S i' => bigIntToBytes_loop i' (Z.shiftr num 8) (set_index arr i' (ToUint8 (Z.land num 0xFF)))
  end.

Definition bigIntToBytes (num : Z) (byteLength : nat) : bytes :=
  bigIntToBytes_loop byteLength num (repeat 0 byteLength).

Definition uint32ToBytes (num : number) : bytes :=
  let arr := repeat 0 4 in
  let arr := set_index arr 0 (ToUint8 (Z.land (Z.shiftr (num_ToUint32 num) 24) 0xFF)) in
  let arr := set_index arr 1 (ToUint8 (Z.land (Z.shiftr (num_ToUint32 num) 16) 0xFF)) in
  let arr := set_index arr 2 (ToUint8 (Z.land (Z.shiftr (num_ToUint32 num) 8) 0xFF)) in
  set_index arr 3 (ToUint8 (Z.land (num_ToInt32 num) 0xFF)).

Definition concatBytes (arrays : list bytes) : bytes := concat arrays.

(** [pbkdf2]: WebCrypto [deriveBits] for PBKDF2 with SHA-256 and
    [keyLength * 8] bits; the single await is a plain call here. *)
Definition pbkdf2 (password salt : bytes) (iterations keyLength : nat) : bytes :=
  Crypto.pbkdf2_hmac_sha256 password salt iterations (Nat.div (keyLength * 8) 8).

(** [slice] on a Uint8Array. *)
Definition u8_slice (a : bytes) (start stop : nat) : bytes := firstn (stop - start) (skipn start a).

Definition otpSecretKdfInputs (serial activationCode registrationCode policy : jsstr)
  : result (bytes * bytes) :=
  let cleanSerial := parseCode serial in
  let cleanActivation := parseCode activationCode in
  let cleanRegistration := parseCode registrationCode in
  let activationWithoutCheck := slice_drop_last cleanActivation in
  let registrationWithoutCheck := slice_drop_last cleanRegistration in
  let* activationNum := BigInt activationWithoutCheck in
  let activationBytes8 := bigIntToBytes activationNum 8 in
  let activationBytes7 := u8_slice activationBytes8 1 (length activationBytes8) in
  let registrationNum := parseInt registrationWithoutCheck in
  let registrationBytes := uint32ToBytes registrationNum in
  let rngBytes := u8_slice registrationBytes 2 4 in
  let password := concatBytes [activationBytes7; rngBytes] in
  let password := if Nat.ltb 0 (length policy)
                  then concatBytes [password; stringToUtf8Bytes policy] else password in
  let salt := stringToUtf8Bytes cleanSerial in
  Ok (password, salt).

Definition generateOtpSecret (serial activationCode registrationCode policy : jsstr) : result bytes :=
  let* kdfInputs := otpSecretKdfInputs serial activationCode registrationCode policy in
  let '(password, salt) := kdfInputs in
  Ok (pbkdf2 password salt 8 16).

Definition generateOtpauthUri (issuer accountName : jsstr) (secretBuffer : bytes) : result jsstr :=
  let secret := Base32.base32Encode secretBuffer in
  let* label := encodeURIComponent (issuer ++ js ":" ++ accountName) in
  let params := [(js "secret", secret); (js "issuer", issuer); (js "algorithm", js "SHA256");
                 (js "digits", js "6"); (js "period", js "30")] in
  Ok (js "otpauth://totp/" ++ label ++ js "?" ++ URLSearchParams_toString params).

End Browser.

(** ** The derivation as the spec describes it (§4.2), for comparison *)
Module Spec.
Import JS.

(** CodeNormalizer: hyphens removed. *)
Definition normalize (raw : jsstr) : jsstr := filter (fun c => negb (c =? 45)) raw.

(** A code with its check digit (last character) dropped after normalizing. *)
Definition residue (code : jsstr) : jsstr := removelast (normalize code).

Definition digit_hyphen (s : jsstr) : bool := forallb (fun c => is_digit c || (c =? 45)) s.

(** The unsigned decimal value of a non-empty digit string. *)
Definition decimal_value (s : jsstr) : option Z :=
  match s with
  | [] => None
  | _ => if forallb is_digit s then Some (fold_left (fun acc c => acc * 10 + (c - 48)) s 0)
         else None
  end.

(** [n]-byte big-endian encoding: byte [k] is digit [n-1-k] of [v] in base 256. *)
Definition be_bytes (n : nat) (v : Z) : bytes :=
  map (fun k => (v / 256 ^ Z.of_nat (n - 1 - k)) mod 256) (seq 0 n).

(** password = activationBytes7 ‖ rngBytes (‖ UTF-8 policy when non-empty). *)
Definition password (activation registration : Z) (policy : jsstr) : bytes :=
  skipn 1 (be_bytes 8 activation)
  ++ [nth 2 (be_bytes 4 registration) 0; nth 3 (be_bytes 4 registration) 0]
  ++ match policy with [] => [] | _ => utf8_encode policy end.

Definition salt (serial : jsstr) : bytes := utf8_encode (normalize serial).

(** A valid input: digit/hyphen codes whose residues have the decimal
    values [a < 2^56] and [r < 2^32]. *)
Definition valid_input (serial activationCode registrationCode : jsstr) (a r : Z) : Prop :=
  digit_hyphen serial = true /\ digit_hyphen activationCode = true /\
  digit_hyphen registrationCode = true /\
  decimal_value (residue activationCode) = Some a /\ a < 2 ^ 56 /\
  decimal_value (residue registrationCode) = Some r /\ r < 2 ^ 32.

End Spec.

(** ** The form handler of the browser code in [src/entrust-totp.js] *)
Module BrowserUI.
Import JS.

Record inputs := mkInputs {
  serial : jsstr; activationCode : jsstr; registrationCode : jsstr;
  accountName : jsstr; issuer : jsstr }.

(** The messages [validateInputs] returns, one constructor per string literal. *)
Inductive validation_error :=
| MissingField | SerialFormat | ActivationFormat | RegistrationFormat
| SerialLength | ActivationLength | RegistrationLength.

(** Truthiness of a string: non-empty. *)
Definition truthy (s : jsstr) : bool := match s with [] => false | _ => true end.

(** [/^[\d-]+$/.test(s)]: one or more of [0-9] and [-], nothing else. *)
Definition digits_hyphens_test (s : jsstr) : bool :=
  truthy s && forallb (fun c => is_digit c || (c =? 45)) s.

Definition validateInputs (i : inputs) : option validation_error :=
  if negb (truthy (serial i)) || negb (truthy (activationCode i))
     || negb (truthy (registrationCode i)) || negb (truthy (accountName i))
  then Some MissingField
  else if negb (digits_hyphens_test (serial i)) then Some SerialFormat
  else if negb (digits_hyphens_test (activationCode i)) then Some ActivationFormat
  else if negb (digits_hyphens_test (registrationCode i)) then Some RegistrationFormat
  else
    let cleanSerial := Browser.parseCode (serial i) in
    let cleanActivation := Browser.parseCode (activationCode i) in
    let cleanRegistration := Browser.parseCode (registrationCode i) in
    if Nat.ltb (length cleanSerial) 5 || Nat.ltb 20 (length cleanSerial) then Some SerialLength
    else if Nat.ltb (length cleanActivation) 10 || Nat.ltb 20 (length cleanActivation)
    then Some ActivationLength
    else if Nat.ltb (length cleanRegistration) 5 || Nat.ltb 15 (length cleanRegistration)
    then Some RegistrationLength
    else None.

(** Form entry values are scalar value strings: [new FormData(form)]
    replaces each unpaired surrogate by U+FFFD. *)
Fixpoint toUSVString (s : jsstr) : jsstr :=
  match s with
  | [] => []
  | c :: rest =>
      if is_high_surrogate c then
        match rest with
        | d :: rest' => if is_low_surrogate d then c :: d :: toUSVString rest'
                        else 0xFFFD :: toUSVString rest
        | [] => [0xFFFD]
        end
      else if is_low_surrogate c then 0xFFFD :: toUSVString rest
      else c :: toUSVString rest
  end.

(** The raw values of the form fields. *)
Record form := mkForm {
  f_serial : jsstr; f_activationCode : jsstr; f_registrationCode : jsstr;
  f_accountName : jsstr; f_issuer : jsstr }.

Inductive shown_error :=
| Validation (e : validation_error)
| GenerationFailed (e : js_error).

(** What the handler leaves on the page: [showError(...)] or [showResult(uri)]. *)
Inductive outcome :=
| ShowError (m : shown_error)
| ShowResult (uri : jsstr).

(** [handleFormSubmit]: the fields are read with [formData.get(...).trim()],
    an empty issuer becomes ['Entrust']; the button and QR-section updates
    do not change the outcome and are left out. *)
Definition handleFormSubmit (f : form) : outcome :=
  let get s := trim (toUSVString s) in
  let iss := get (f_issuer f) in
  let inputs := mkInputs (get (f_serial f)) (get (f_activationCode f)) (get (f_registrationCode f))
                         (get (f_accountName f)) (if truthy iss then iss else js "Entrust") in
  match validateInputs inputs with
  | Some e => ShowError (Validation e)
  | None =>
      match Browser.generateOtpSecret (serial inputs) (activationCode inputs)
              (registrationCode inputs) [] with
      | Throw e => ShowError (GenerationFailed e)
      | Ok otpSecret =>
          match Browser.generateOtpauthUri (issuer inputs) (accountName inputs) otpSecret with
          | Throw e => ShowError (GenerationFailed e)
          | Ok uri => ShowResult uri
          end
      end
  end.

End BrowserUI.

(** ** The command line entry point [main] of [src/entrust-totp.js] *)
Module Cli.
Import JS.

(** The environment variables [main] reads ([undefined] as [None]). *)
Record env := mkEnv {
  SERIAL : option jsstr; ACTIVATION_CODE : option jsstr; REGISTRATION_CODE : option jsstr;
  ACCOUNT_NAME : option jsstr; ISSUER : option jsstr }.

(** [a || b] on values that are a string or [undefined]. *)
Definition js_or (a b : option jsstr) : option jsstr :=
  match a with
  | Some (_ :: _) => a
  | _ => b
  end.

(** Usage message and [exit(1)]; the URI printed; the error printed and [exit(1)]. *)
Inductive outcome :=
| Usage
| Printed (uri : jsstr)
| Failed (e : js_error).

Definition main (args : list jsstr) (e : env) : outcome :=
  let serial := js_or (nth_error args 0) (SERIAL e) in
  let activationCode := js_or (nth_error args 1) (ACTIVATION_CODE e) in
  let registrationCode := js_or (nth_error args 2) (REGISTRATION_CODE e) in
  let accountName := js_or (nth_error args 3) (ACCOUNT_NAME e) in
  let issuer := match js_or (nth_error args 4) (ISSUER e) with
                | Some ((_ :: _) as i) => i
                | _ => js "Entrust"
                end in
  match serial, activationCode, registrationCode, accountName with
  | Some ((_ :: _) as s), Some ((_ :: _) as a), Some ((_ :: _) as r), Some ((_ :: _) as n) =>
      match Node.generateOtpSecret s a r [] with
      | Throw err => Failed err
      | Ok otpSecretBuffer =>
          match Node.generateOtpauthUri issuer n otpSecretBuffer with
          | Throw err => Failed err
          | Ok otpauthUri => Printed otpauthUri
          end
      end
  | _, _, _, _ => Usage
  end.

End Cli.

(** ** An RFC 4648 Base32 decoder (no padding), to state what [base32Encode] computes *)
Module Ref.
Import JS.

(** Index of a character of [A-Z2-7] in the alphabet. *)
Definition index_of (c : Z) : Z :=
  if (65 <=? c) && (c <=? 90) then c - 65
  else if (50 <=? c) && (c <=? 55) then c - 24
  else 0.

(** The string read as a base-32 numeral. *)
Definition b32_value (s : jsstr) : Z := fold_left (fun acc c => acc * 32 + index_of c) s 0.

(** The [5 len / 8] whole bytes of the [5 len] bits, the fill bits dropped. *)
Definition base32Decode (s : jsstr) : bytes :=
  let n := Nat.div (5 * length s) 8 in
  Crypto.be_encode n (Z.shiftr (b32_value s) (Z.of_nat (5 * length s - 8 * n))).
End Ref.

(** ** Facts about the primitives *)
Module Facts.
Import JS.

Lemma testbit_ToInt32 x i : 0 <= i < 32 -> Z.testbit (ToInt32 x) i = Z.testbit x i.
Proof.
  intros Hi. unfold ToInt32.
  destruct (2 ^ 31 <=? x mod 2 ^ 32).
  - rewrite <- (Z.mod_pow2_bits_low _ 32 i) by lia.
    replace (x mod 2 ^ 32 - 2 ^ 32) with (x mod 2 ^ 32 + (-1) * 2 ^ 32) by ring.
    rewrite Z_mod_plus_full, Z.mod_mod by lia.
    apply Z.mod_pow2_bits_low; lia.
  - apply Z.mod_pow2_bits_low; lia.
Qed.

Lemma testbit_ToUint32 x i : 0 <= i < 32 -> Z.testbit (ToUint32 x) i = Z.testbit x i.
Proof. intros Hi. apply Z.mod_pow2_bits_low; lia. Qed.

Lemma ToUint8_land z : ToUint8 z = Z.land z (Z.ones 8).
Proof. rewrite Z.land_ones by lia. reflexivity. Qed.

Ltac ltb_cases :=
  repeat match goal with
         | |- context [?a <? ?b] => destruct (Z.ltb_spec a b); try lia
         end.

(** Equality of two bytes, bit by bit. *)
Ltac byte_bits :=
  rewrite ?ToUint8_land;
  change 255 with (Z.ones 8); change 0xffffffff with (Z.ones 32);
  apply Z.bits_inj'; intros i Hi;
  rewrite !Z.land_spec, !(Z.testbit_ones_nonneg 8) by lia;
  destruct (Z.ltb_spec i 8); [|rewrite !andb_false_r; reflexivity];
  rewrite !andb_true_r;
  repeat first [ rewrite Z.shiftr_spec by lia
               | rewrite testbit_ToInt32 by lia
               | rewrite testbit_ToUint32 by lia
               | rewrite Z.land_spec
               | rewrite Z.testbit_ones_nonneg by lia ];
  ltb_cases; rewrite ?andb_true_r; f_equal; lia.

Lemma writeBigUInt64BE_alloc v :
  0 <= v <= 0xffffffffffffffff ->
  writeBigUInt64BE (Buffer_alloc 8) v 0 = Ok (Crypto.be_encode 8 v).
Proof.
  intros Hv. unfold writeBigUInt64BE.
  replace ((v >? 0xffffffffffffffff) || (v <? 0)) with false
    by (symmetry; apply orb_false_iff; rewrite Z.gtb_ltb, !Z.ltb_ge; lia).
  cbn -[ToInt32 ToUint8 Z.shiftr Z.land].
  f_equal. repeat f_equal; byte_bits.
Qed.

Lemma writeUInt32BE_alloc z :
  0 <= z <= 0xffffffff ->
  writeUInt32BE (Buffer_alloc 4) (Num z) 0 = Ok (Crypto.be_encode 4 z).
Proof.
  intros Hz. unfold writeUInt32BE.
  replace ((z >? 0xffffffff) || (z <? 0)) with false
    by (symmetry; apply orb_false_iff; rewrite Z.gtb_ltb, !Z.ltb_ge; lia).
  cbn -[ToUint32 ToUint8 Z.shiftr Z.land].
  f_equal. repeat f_equal; byte_bits.
Qed.

Lemma writeUInt32BE_alloc_NaN : writeUInt32BE (Buffer_alloc 4) NaN 0 = Ok [0; 0; 0; 0].
Proof. reflexivity. Qed.

Lemma writeUInt32BE_range z :
  0xffffffff < z -> writeUInt32BE (Buffer_alloc 4) (Num z) 0 = Throw RangeError.
Proof.
  intros Hz. unfold writeUInt32BE.
  replace ((z >? 0xffffffff) || (z <? 0)) with true
    by (symmetry; apply orb_true_iff; left; rewrite Z.gtb_ltb, Z.ltb_lt; lia).
  reflexivity.
Qed.

Lemma round_double_small m : m < 2 ^ 53 -> round_double m = m.
Proof. intros H. unfold round_double. rewrite (proj2 (Z.ltb_lt _ _) H). reflexivity. Qed.

(** Rounding keeps a large integer large: 53 significant bits are kept. *)
Lemma round_double_large m : 2 ^ 53 <= m -> 2 ^ 52 <= round_double m.
Proof.
  intros H. unfold round_double. rewrite (proj2 (Z.ltb_ge _ _) H). cbv zeta.
  assert (Hm : 0 < m) by lia.
  assert (Hl : 53 <= Z.log2 m) by (apply Z.log2_le_pow2; lia).
  set (sh := Z.log2 m - 52).
  assert (Hq : 2 ^ 52 <= Z.shiftr m sh).
  { rewrite Z.shiftr_div_pow2 by lia.
    apply Z.div_le_lower_bound; [apply Z.pow_pos_nonneg; lia|].
    rewrite <- Z.pow_add_r by lia. replace (sh + 52) with (Z.log2 m) by lia.
    apply Z.log2_spec; lia. }
  assert (Hsh : 0 < 2 ^ sh) by (apply Z.pow_pos_nonneg; lia).
  set (q := Z.shiftr m sh) in *.
  destruct (_ || _); nia.
Qed.

Lemma to_number_exact z : Z.abs z < 2 ^ 53 -> to_number z = Num z.
Proof.
  intros H. unfold to_number. rewrite round_double_small by exact H.
  assert (H1024 : 2 ^ 53 < 2 ^ 1024) by (apply Z.pow_lt_mono_r; lia).
  rewrite (proj2 (Z.leb_gt _ _)) by lia. destruct z; reflexivity.
Qed.

(** [writeUInt32BE] rejects the double of any integer above 2^32 - 1. *)
Lemma writeUInt32BE_to_number_range z :
  0xffffffff < z -> writeUInt32BE (Buffer_alloc 4) (to_number z) 0 = Throw RangeError.
Proof.
  intros Hz. destruct (Z.lt_ge_cases z (2 ^ 53)) as [Hs|Hl].
  - rewrite to_number_exact by lia. apply writeUInt32BE_range. exact Hz.
  - unfold to_number. rewrite Z.abs_eq by lia.
    pose proof (round_double_large z Hl).
    destruct (2 ^ 1024 <=? round_double z); [reflexivity|].
    rewrite Z.sgn_pos by lia. apply writeUInt32BE_range. lia.
Qed.

Lemma writeBigUInt64BE_range v :
  0xffffffffffffffff < v -> writeBigUInt64BE (Buffer_alloc 8) v 0 = Throw RangeError.
Proof.
  intros Hv. unfold writeBigUInt64BE.
  replace ((v >? 0xffffffffffffffff) || (v <? 0)) with true
    by (symmetry; apply orb_true_iff; left; rewrite Z.gtb_ltb, Z.ltb_lt; lia).
  reflexivity.
Qed.

Lemma bigIntToBytes_8 v : Browser.bigIntToBytes v 8 = Crypto.be_encode 8 v.
Proof.
  cbn -[ToUint8 Z.shiftr Z.land].
  repeat f_equal; byte_bits.
Qed.

Lemma uint32ToBytes_Num z : Browser.uint32ToBytes (Num z) = Crypto.be_encode 4 z.
Proof.
  cbn -[ToUint8 ToUint32 ToInt32 Z.shiftr Z.land].
  repeat f_equal; byte_bits.
Qed.

Lemma uint32ToBytes_NaN : Browser.uint32ToBytes NaN = [0; 0; 0; 0].
Proof. reflexivity. Qed.

Lemma land_shiftr_byte v k : 0 <= k -> Z.land (Z.shiftr v k) 255 = (v / 2 ^ k) mod 256.
Proof.
  intros Hk. change 255 with (Z.ones 8).
  rewrite Z.land_ones, Z.shiftr_div_pow2 by lia. reflexivity.
Qed.

Lemma be_encode_8 v : Crypto.be_encode 8 v = Spec.be_bytes 8 v.
Proof.
  cbn -[Z.shiftr Z.land Z.div Z.modulo Z.pow].
  rewrite !Z.shiftr_shiftr by lia.
  rewrite !land_shiftr_byte by lia.
  replace (Z.land v 255) with (v / 2 ^ 0 mod 256) by (rewrite <- land_shiftr_byte by lia; reflexivity).
  reflexivity.
Qed.

Lemma be_encode_4 v : Crypto.be_encode 4 v = Spec.be_bytes 4 v.
Proof.
  cbn -[Z.shiftr Z.land Z.div Z.modulo Z.pow].
  rewrite !Z.shiftr_shiftr by lia.
  rewrite !land_shiftr_byte by lia.
  replace (Z.land v 255) with (v / 2 ^ 0 mod 256) by (rewrite <- land_shiftr_byte by lia; reflexivity).
  reflexivity.
Qed.

Lemma slice_drop_last_removelast (s : jsstr) : slice_drop_last s = removelast s.
Proof.
  unfold slice_drop_last. rewrite removelast_firstn_len, Nat.sub_1_r. reflexivity.
Qed.

Definition fold_dec (acc c : Z) : Z := acc * 10 + (c - 48).

Lemma digits_acc_decimal (s : jsstr) acc :
  forallb is_digit s = true -> digits_acc 10 s acc = Some (fold_left fold_dec s acc).
Proof.
  revert acc. induction s as [|c s IH]; intros acc H; [reflexivity|].
  simpl in H. apply andb_true_iff in H as [Hc Hs].
  unfold is_digit in Hc. apply andb_true_iff in Hc as [H1 H2].
  apply Z.leb_le in H1. apply Z.leb_le in H2.
  cbn [digits_acc fold_left]. unfold radix_digit, is_digit.
  replace ((48 <=? c) && (c <=? 57)) with true
    by (symmetry; apply andb_true_iff; split; apply Z.leb_le; lia).
  replace (c - 48 <? 10) with true by (symmetry; apply Z.ltb_lt; lia).
  apply IH; exact Hs.
Qed.

Lemma fold_dec_nonneg (s : jsstr) acc :
  forallb is_digit s = true -> 0 <= acc -> 0 <= fold_left fold_dec s acc.
Proof.
  revert acc. induction s as [|c s IH]; intros acc H Hacc; [exact Hacc|].
  simpl in H. apply andb_true_iff in H as [Hc Hs].
  unfold is_digit in Hc. apply andb_true_iff in Hc as [H1 H2].
  apply Z.leb_le in H1. cbn [fold_left]. apply IH; [exact Hs|]. unfold fold_dec. lia.
Qed.

Lemma digit_not_whitespace c : is_digit c = true -> is_js_whitespace c = false.
Proof.
  unfold is_digit, is_js_whitespace. intros H.
  apply andb_true_iff in H as [H1 H2]. apply Z.leb_le in H1. apply Z.leb_le in H2.
  apply orb_false_iff. split.
  - cbn [existsb]. rewrite !(proj2 (Z.eqb_neq _ _)) by lia. reflexivity.
  - apply andb_false_iff. left. apply Z.leb_gt. lia.
Qed.

Lemma trim_start_digits (s : jsstr) :
  forallb is_digit s = true -> trim_start s = s.
Proof.
  destruct s as [|c s]; [reflexivity|]. intros H. simpl in H.
  apply andb_true_iff in H as [Hc _]. cbn [trim_start].
  rewrite digit_not_whitespace by exact Hc. reflexivity.
Qed.

Lemma trim_digits (s : jsstr) : forallb is_digit s = true -> trim s = s.
Proof.
  intros H. unfold trim. rewrite (trim_start_digits s H).
  rewrite trim_start_digits; [apply rev_involutive|].
  apply forallb_forall. intros x Hx. apply in_rev in Hx.
  exact (proj1 (forallb_forall _ _) H x Hx).
Qed.

Lemma digit_neq c k : is_digit c = true -> (k < 48 \/ 57 < k) -> (c =? k) = false.
Proof.
  unfold is_digit. intros H Hk. apply andb_true_iff in H as [H1 H2].
  apply Z.leb_le in H1. apply Z.leb_le in H2. apply Z.eqb_neq. lia.
Qed.

Ltac digit_neqs Hc :=
  rewrite ?(digit_neq _ 43 Hc), ?(digit_neq _ 45 Hc), ?(digit_neq _ 120 Hc),
    ?(digit_neq _ 88 Hc), ?(digit_neq _ 111 Hc), ?(digit_neq _ 79 Hc),
    ?(digit_neq _ 98 Hc), ?(digit_neq _ 66 Hc) by lia.

(** On a non-empty decimal digit string, [BigInt] and [parseInt] both
    return its decimal value. *)
Lemma BigInt_decimal (s : jsstr) v :
  Spec.decimal_value s = Some v -> BigInt s = Ok v.
Proof.
  unfold Spec.decimal_value, BigInt, StringToBigInt. intros H.
  destruct s as [|c s]; [discriminate|].
  destruct (forallb is_digit (c :: s)) eqn:Hd; [|discriminate].
  injection H as <-. rewrite trim_digits by exact Hd.
  pose proof Hd as Hd'. simpl in Hd'. apply andb_true_iff in Hd' as [Hc Hs].
  assert (Hsd : signed_decimal (c :: s) = Some (fold_left fold_dec (c :: s) 0)).
  { unfold signed_decimal. digit_neqs Hc. cbn [digits_value].
    rewrite digits_acc_decimal by exact Hd. reflexivity. }
  destruct s as [|c1 s].
  - rewrite Hsd. reflexivity.
  - simpl in Hs. apply andb_true_iff in Hs as [Hc1 _].
    digit_neqs Hc1. cbn -[signed_decimal].
    destruct (c =? 48); rewrite Hsd; reflexivity.
Qed.

Lemma take_while_all (p : Z -> bool) (s : jsstr) : forallb p s = true -> take_while p s = s.
Proof.
  induction s as [|c s IH]; intros H; [reflexivity|].
  simpl in H. apply andb_true_iff in H as [Hc Hs]. simpl. rewrite Hc, IH by exact Hs. reflexivity.
Qed.

Lemma radix10_digit c : is_digit c = true -> radix_digit 10 c = Some (c - 48).
Proof.
  intros Hc. unfold radix_digit. rewrite Hc.
  unfold is_digit in Hc. apply andb_true_iff in Hc as [H1 H2].
  apply Z.leb_le in H1. apply Z.leb_le in H2.
  replace (c - 48 <? 10) with true by (symmetry; apply Z.ltb_lt; lia). reflexivity.
Qed.

Lemma parseInt_decimal_number (s : jsstr) v :
  Spec.decimal_value s = Some v -> parseInt s = to_number v.
Proof.
  unfold Spec.decimal_value, parseInt. intros H.
  destruct s as [|c s]; [discriminate|].
  destruct (forallb is_digit (c :: s)) eqn:Hd; [|discriminate].
  injection H as <-. rewrite trim_start_digits by exact Hd.
  pose proof Hd as Hd'. simpl in Hd'. apply andb_true_iff in Hd' as [Hc Hs].
  cbv beta iota. digit_neqs Hc.
  assert (Htw : take_while (fun c0 => match radix_digit 10 c0 with Some _ => true | None => false end)
                  (c :: s) = c :: s).
  { apply take_while_all. apply forallb_forall. intros x Hx.
    rewrite radix10_digit; [reflexivity|]. exact (proj1 (forallb_forall _ _) Hd x Hx). }
  destruct s as [|c1 s].
  - cbv beta iota. rewrite Htw. cbn [digits_value].
    rewrite digits_acc_decimal by exact Hd. rewrite Z.mul_1_l. reflexivity.
  - simpl in Hs. apply andb_true_iff in Hs as [Hc1 _]. digit_neqs Hc1.
    rewrite andb_false_r. cbv beta iota. rewrite Htw. cbn [digits_value].
    rewrite digits_acc_decimal by exact Hd. rewrite Z.mul_1_l. reflexivity.
Qed.

Lemma decimal_value_nonneg (s : jsstr) v : Spec.decimal_value s = Some v -> 0 <= v.
Proof.
  unfold Spec.decimal_value. intros H. destruct s as [|c s]; [discriminate|].
  destruct (forallb is_digit (c :: s)) eqn:Hd; [|discriminate].
  injection H as <-. exact (fold_dec_nonneg (c :: s) 0 Hd (Z.le_refl 0)).
Qed.

(** Below 2^53 the double of a decimal digit string is its exact value. *)
Lemma parseInt_decimal (s : jsstr) v :
  Spec.decimal_value s = Some v -> v < 2 ^ 53 -> parseInt s = Num v.
Proof.
  intros H Hv. rewrite (parseInt_decimal_number _ _ H).
  pose proof (decimal_value_nonneg _ _ H). apply to_number_exact. lia.
Qed.

(** With residues of decimal values [a < 2^56] and [r < 2^32], both variants
    hand the spec's password and salt to the KDF. *)
Lemma node_kdf_inputs_values serial act reg policy a r :
  Spec.decimal_value (Spec.residue act) = Some a -> a < 2 ^ 56 ->
  Spec.decimal_value (Spec.residue reg) = Some r -> r < 2 ^ 32 ->
  Node.otpSecretKdfInputs serial act reg policy = Ok (Spec.password a r policy, Spec.salt serial).
Proof.
  intros Ha Ha56 Hr Hr32.
  pose proof (decimal_value_nonneg _ _ Ha). pose proof (decimal_value_nonneg _ _ Hr).
  unfold Node.otpSecretKdfInputs, Node.parseCode.
  rewrite !slice_drop_last_removelast.
  change (removelast (replace_hyphens act)) with (Spec.residue act).
  change (removelast (replace_hyphens reg)) with (Spec.residue reg).
  rewrite (BigInt_decimal _ _ Ha). cbn [bind].
  rewrite writeBigUInt64BE_alloc by lia. cbn [bind].
  rewrite (parseInt_decimal _ _ Hr), writeUInt32BE_alloc by lia. cbn [bind].
  rewrite be_encode_8, be_encode_4.
  unfold Spec.password, Spec.salt. destruct policy; reflexivity.
Qed.

Lemma node_kdf_inputs_valid serial act reg policy a r :
  Spec.valid_input serial act reg a r ->
  Node.otpSecretKdfInputs serial act reg policy = Ok (Spec.password a r policy, Spec.salt serial).
Proof.
  intros (_ & _ & _ & Ha & Ha56 & Hr & Hr32). apply node_kdf_inputs_values; assumption.
Qed.

Lemma browser_kdf_inputs_valid serial act reg policy a r :
  Spec.valid_input serial act reg a r ->
  Browser.otpSecretKdfInputs serial act reg policy = Ok (Spec.password a r policy, Spec.salt serial).
Proof.
  intros (_ & _ & _ & Ha & Ha56 & Hr & Hr32).
  unfold Browser.otpSecretKdfInputs, Browser.parseCode.
  rewrite !slice_drop_last_removelast.
  change (removelast (replace_hyphens act)) with (Spec.residue act).
  change (removelast (replace_hyphens reg)) with (Spec.residue reg).
  rewrite (BigInt_decimal _ _ Ha). cbn [bind].
  rewrite bigIntToBytes_8, (parseInt_decimal _ _ Hr) by lia. rewrite uint32ToBytes_Num.
  rewrite be_encode_8, be_encode_4.
  unfold Spec.password, Spec.salt, Browser.stringToUtf8Bytes, Browser.concatBytes.
  destruct policy; cbn [concat]; rewrite ?app_nil_r; reflexivity.
Qed.

(** Lengths in the key derivation. *)
Lemma be_encode_length n v : length (Crypto.be_encode n v) = n.
Proof.
  revert v. induction n as [|n IH]; intros v; [reflexivity|].
  cbn [Crypto.be_encode]. rewrite length_app, IH. simpl. lia.
Qed.

Lemma flat_map_be4_length (l : list Z) : length (flat_map (Crypto.be_encode 4) l) = (4 * length l)%nat.
Proof.
  induction l as [|x l IH]; [reflexivity|].
  cbn [flat_map]. rewrite length_app, IH, be_encode_length. simpl. lia.
Qed.

Lemma rounds_length ks ws st : length st = 8%nat -> length (Crypto.rounds ks ws st) = 8%nat.
Proof.
  revert ws st. induction ks as [|k ks IH]; intros ws st Hst; [destruct ws; exact Hst|].
  destruct ws as [|w ws]; [exact Hst|].
  destruct st as [|a [|b [|c [|d [|e [|f [|g [|h [|? ?]]]]]]]]]; try discriminate.
  cbn [Crypto.rounds]. apply IH. reflexivity.
Qed.

Lemma blocks_length fuel hs l : length hs = 8%nat -> length (Crypto.blocks fuel hs l) = 8%nat.
Proof.
  revert hs l. induction fuel as [|f IH]; intros hs l Hhs; [exact Hhs|].
  destruct l as [|x l]; [exact Hhs|]. cbn [Crypto.blocks]. apply IH.
  unfold Crypto.compress. rewrite length_map, length_combine, rounds_length; rewrite Hhs; reflexivity.
Qed.

Lemma sha256_length m : length (Crypto.sha256 m) = 32%nat.
Proof.
  unfold Crypto.sha256. rewrite flat_map_be4_length, blocks_length; reflexivity.
Qed.

Lemma hmac_length k m : length (Crypto.hmac_sha256 k m) = 32%nat.
Proof. apply sha256_length. Qed.

Lemma xor_bytes_length a b : length (Crypto.xor_bytes a b) = Nat.min (length a) (length b).
Proof. unfold Crypto.xor_bytes. rewrite length_map, length_combine. reflexivity. Qed.

Lemma pbkdf2_iter_length p n u acc :
  length acc = 32%nat -> length (Crypto.pbkdf2_iter p n u acc) = 32%nat.
Proof.
  revert u acc. induction n as [|n IH]; intros u acc H; [exact H|].
  cbn [Crypto.pbkdf2_iter]. apply IH. rewrite xor_bytes_length, H, hmac_length. reflexivity.
Qed.

Lemma pbkdf2_16_length p s c : length (Crypto.pbkdf2_hmac_sha256 p s c 16) = 16%nat.
Proof.
  unfold Crypto.pbkdf2_hmac_sha256. simpl (seq 1 _). cbn [flat_map].
  rewrite app_nil_r, length_firstn. unfold Crypto.pbkdf2_block.
  rewrite pbkdf2_iter_length by apply hmac_length. reflexivity.
Qed.

Lemma in_removelast_in (l : jsstr) x : In x (removelast l) -> In x l.
Proof.
  induction l as [|c l IH]; [intros []|].
  destruct l as [|d l]; [intros []|]. intros [<-|H]; [left; reflexivity | right; apply IH, H].
Qed.

Lemma residue_digits (code : jsstr) :
  Spec.digit_hyphen code = true -> forallb is_digit (Spec.residue code) = true.
Proof.
  unfold Spec.digit_hyphen, Spec.residue, Spec.normalize. intros H.
  apply forallb_forall. intros x Hx. apply in_removelast_in in Hx.
  apply filter_In in Hx as [Hx Hn]. pose proof (proj1 (forallb_forall _ _) H x Hx) as Hd.
  apply orb_true_iff in Hd as [Hd|Hd]; [exact Hd|].
  apply Z.eqb_eq in Hd. subst x. discriminate.
Qed.

Lemma BigInt_digits (s : jsstr) :
  forallb is_digit s = true -> exists v, 0 <= v /\ BigInt s = Ok v.
Proof.
  intros H. destruct s as [|c s]; [exists 0; split; [lia | reflexivity]|].
  exists (fold_left fold_dec (c :: s) 0). split.
  - apply fold_dec_nonneg; [exact H | lia].
  - apply BigInt_decimal. unfold Spec.decimal_value. rewrite H. reflexivity.
Qed.

(** [generateOtpSecret] reads the codes only through their residues. *)
Lemma residue_slice (code : jsstr) : slice_drop_last (Node.parseCode code) = Spec.residue code.
Proof. apply slice_drop_last_removelast. Qed.

Lemma subarray_skip1 (l : bytes) : subarray l 1 (length l) = skipn 1 l.
Proof. unfold subarray. apply firstn_all2. rewrite length_skipn. lia. Qed.

Lemma byte_of_mod v k n :
  0 <= k -> k + 8 <= n -> Z.land (Z.shiftr (v mod 2 ^ n) k) 255 = Z.land (Z.shiftr v k) 255.
Proof.
  intros Hk Hn. change 255 with (Z.ones 8). apply Z.bits_inj'. intros i Hi.
  rewrite !Z.land_spec, Z.testbit_ones_nonneg by lia.
  destruct (Z.ltb_spec i 8); [|rewrite !andb_false_r; reflexivity].
  rewrite !Z.shiftr_spec by lia. rewrite Z.mod_pow2_bits_low by lia. reflexivity.
Qed.

(** The low 7 bytes of the 8-byte encoding only see [v mod 2^56]. *)
Lemma skip1_be_encode_mod v :
  skipn 1 (Crypto.be_encode 8 (v mod 2 ^ 56)) = skipn 1 (Crypto.be_encode 8 v).
Proof.
  cbn -[Z.shiftr Z.land Z.pow Z.modulo]. rewrite !Z.shiftr_shiftr by lia.
  rewrite !byte_of_mod by lia.
  rewrite <- (Z.shiftr_0_r (v mod 2 ^ 56)), <- (Z.shiftr_0_r v) at 1.
  rewrite byte_of_mod by lia. reflexivity.
Qed.

Lemma digits_acc_non_digit (l : jsstr) x acc :
  In x l -> is_digit x = false -> digits_acc 10 l acc = None.
Proof.
  revert acc. induction l as [|c l IH]; intros acc Hin Hx; [destruct Hin|].
  destruct Hin as [->|Hin].
  - cbn [digits_acc]. unfold radix_digit. rewrite Hx.
    destruct ((97 <=? x) && (x <=? 122)) eqn:E1;
      [apply andb_true_iff in E1 as [E1 _]; apply Z.leb_le in E1;
       replace (x - 87 <? 10) with false by (symmetry; apply Z.ltb_ge; lia); reflexivity|].
    destruct ((65 <=? x) && (x <=? 90)) eqn:E2;
      [apply andb_true_iff in E2 as [E2 _]; apply Z.leb_le in E2;
       replace (x - 55 <? 10) with false by (symmetry; apply Z.ltb_ge; lia); reflexivity|].
    reflexivity.
  - cbn [digits_acc]. destruct (radix_digit 10 c); [apply IH; assumption | reflexivity].
Qed.

Lemma radix10_non_digit x : is_digit x = false -> radix_digit 10 x = None.
Proof.
  intros Hx. pose proof (digits_acc_non_digit [x] x 0 (or_introl eq_refl) Hx) as H.
  cbn [digits_acc] in H. destruct (radix_digit 10 x); [discriminate | reflexivity].
Qed.

Lemma trim_start_split (l : jsstr) :
  exists pre, l = pre ++ trim_start l /\ forallb is_js_whitespace pre = true.
Proof.
  induction l as [|c l IH]; [exists []; split; reflexivity|].
  cbn [trim_start]. destruct (is_js_whitespace c) eqn:Hc.
  - destruct IH as (pre & Hl & Hw). exists (c :: pre). split.
    + simpl. f_equal. exact Hl.
    + simpl. rewrite Hc, Hw. reflexivity.
  - exists []. split; reflexivity.
Qed.

(** Trimming a string that starts with a digit keeps that digit first and
    keeps every character that is not white space. *)
Lemma trim_digit_head c rest x :
  is_digit c = true -> In x (c :: rest) -> is_js_whitespace x = false ->
  exists m, trim (c :: rest) = c :: m /\ In x (c :: m).
Proof.
  intros Hc Hx Hw. unfold trim.
  change (trim_start (c :: rest)) with (if is_js_whitespace c then trim_start rest else c :: rest).
  rewrite digit_not_whitespace by exact Hc.
  destruct (trim_start_split (rev (c :: rest))) as (pre & Hl & Hpre).
  assert (Hcr : c :: rest = rev (trim_start (rev (c :: rest))) ++ rev pre).
  { rewrite <- rev_app_distr, <- Hl, rev_involutive. reflexivity. }
  assert (Hnot : forall y, In y (rev pre) -> is_js_whitespace y = true).
  { intros y Hy. apply in_rev in Hy. exact (proj1 (forallb_forall _ _) Hpre y Hy). }
  destruct (rev (trim_start (rev (c :: rest)))) as [|c' m] eqn:E.
  - exfalso. simpl in Hcr. assert (Hin : In c (rev pre)) by (rewrite <- Hcr; left; reflexivity).
    specialize (Hnot c Hin). rewrite digit_not_whitespace in Hnot by exact Hc. discriminate.
  - simpl in Hcr. injection Hcr as <- Hrest. exists m. split; [reflexivity|].
    rewrite Hrest in Hx. rewrite app_comm_cons in Hx. apply in_app_or in Hx as [Hx|Hx]; [exact Hx|].
    rewrite (Hnot x Hx) in Hw. discriminate.
Qed.

(** [BigInt] rejects a residue that starts with a digit 1-9 and contains a
    character that is neither a digit nor white space. *)
Lemma BigInt_non_digit c rest x :
  49 <= c <= 57 -> In x rest -> is_digit x = false -> is_js_whitespace x = false ->
  BigInt (c :: rest) = Throw SyntaxError.
Proof.
  intros Hc Hx Hd Hw.
  assert (Hcd : is_digit c = true) by (unfold is_digit; apply andb_true_iff; split; apply Z.leb_le; lia).
  destruct (trim_digit_head c rest x Hcd (or_intror Hx) Hw) as (m & Ht & Hm).
  unfold BigInt, StringToBigInt. rewrite Ht.
  assert (Hsd : signed_decimal (c :: m) = None).
  { unfold signed_decimal. digit_neqs Hcd. cbn [digits_value].
    apply (digits_acc_non_digit _ x); assumption. }
  replace (c =? 48) with false by (symmetry; apply Z.eqb_neq; lia).
  destruct m; rewrite Hsd; reflexivity.
Qed.

(** [parseInt] stops at the first non-digit after a decimal digit prefix. *)
Lemma parseInt_prefix ds x rest :
  forallb is_digit ds = true -> ds <> [] -> is_digit x = false ->
  ~ (ds = [48] /\ (x = 120 \/ x = 88)) ->
  parseInt (ds ++ x :: rest) = parseInt ds.
Proof.
  intros Hds Hne Hx Hhex.
  destruct ds as [|c ds]; [contradiction|].
  pose proof Hds as Hds'. simpl in Hds'. apply andb_true_iff in Hds' as [Hc Hs].
  assert (Htw : forall l, take_while (fun c0 => match radix_digit 10 c0 with Some _ => true | None => false end)
                  ((c :: ds) ++ l) = (c :: ds) ++ take_while (fun c0 => match radix_digit 10 c0 with Some _ => true | None => false end) l).
  { intros l. clear Hne Hhex. revert Hds. generalize (c :: ds). intros l0. induction l0 as [|y l0 IH]; intros H; [reflexivity|].
    simpl in H. apply andb_true_iff in H as [Hy Hl0]. cbn [app take_while].
    rewrite radix10_digit by exact Hy. rewrite IH by exact Hl0. reflexivity. }
  assert (Hx0 : take_while (fun c0 => match radix_digit 10 c0 with Some _ => true | None => false end)
                  (x :: rest) = []).
  { cbn [take_while]. rewrite radix10_non_digit by exact Hx. reflexivity. }
  unfold parseInt.
  rewrite (trim_start_digits (c :: ds) Hds).
  assert (Hstart : trim_start ((c :: ds) ++ x :: rest) = (c :: ds) ++ x :: rest).
  { cbn [app trim_start]. rewrite digit_not_whitespace by exact Hc. reflexivity. }
  rewrite Hstart. cbn [app]. digit_neqs Hc. cbv beta iota.
  destruct ds as [|c1 ds].
  - cbn [app]. destruct ((c =? 48) && ((x =? 120) || (x =? 88))) eqn:E.
    + exfalso. apply Hhex. apply andb_true_iff in E as [E1 E2]. apply Z.eqb_eq in E1. subst c.
      split; [reflexivity|]. apply orb_true_iff in E2 as [E2|E2]; apply Z.eqb_eq in E2; auto.
    + cbv beta iota. specialize (Htw (x :: rest)). cbn [app] in Htw. rewrite Htw, Hx0.
      cbn [app]. set (f := fun c0 => match radix_digit 10 c0 with Some _ => true | None => false end).
      specialize (take_while_all f [c]). intros Hall. rewrite Hall; [reflexivity|].
      simpl. unfold f. rewrite radix10_digit by exact Hc. reflexivity.
  - simpl in Hs. apply andb_true_iff in Hs as [Hc1 _]. digit_neqs Hc1.
    cbn [app]. digit_neqs Hc1. rewrite andb_false_r. cbv beta iota.
    specialize (Htw (x :: rest)).
    change (c :: c1 :: ds ++ x :: rest) with ((c :: c1 :: ds) ++ x :: rest). rewrite Htw, Hx0, app_nil_r.
    rewrite take_while_all; [reflexivity|].
    apply forallb_forall. intros y Hy. rewrite radix10_digit; [reflexivity|].
    exact (proj1 (forallb_forall _ _) Hds y Hy).
Qed.

(** [parseInt] returns NaN on a string that starts with a character that is
    not a digit, white space or sign. *)
Lemma parseInt_no_digit x rest :
  is_digit x = false -> is_js_whitespace x = false -> x <> 43 -> x <> 45 ->
  parseInt (x :: rest) = NaN.
Proof.
  intros Hd Hw H43 H45. unfold parseInt. cbn [trim_start]. rewrite Hw.
  rewrite (proj2 (Z.eqb_neq x 45) H45), (proj2 (Z.eqb_neq x 43) H43). cbv beta iota.
  assert (H48 : (x =? 48) = false).
  { apply Z.eqb_neq. intros ->. discriminate. }
  destruct rest as [|y rest].
  - cbn [take_while]. rewrite radix10_non_digit by exact Hd. reflexivity.
  - rewrite H48. cbn [andb take_while]. rewrite radix10_non_digit by exact Hd. reflexivity.
Qed.

(** The registration code enters [generateOtpSecret] only through the four
    bytes that [writeUInt32BE] makes of [parseInt] of its residue. *)
Lemma registration_bytes_only serial act reg1 reg2 policy :
  writeUInt32BE (Buffer_alloc 4) (parseInt (Spec.residue reg1)) 0
  = writeUInt32BE (Buffer_alloc 4) (parseInt (Spec.residue reg2)) 0 ->
  Node.generateOtpSecret serial act reg1 policy = Node.generateOtpSecret serial act reg2 policy.
Proof.
  intros H. unfold Node.generateOtpSecret, Node.otpSecretKdfInputs.
  rewrite !residue_slice, H. reflexivity.
Qed.

Lemma activation_value_only serial act1 act2 reg policy :
  BigInt (Spec.residue act1) = BigInt (Spec.residue act2) ->
  Node.generateOtpSecret serial act1 reg policy = Node.generateOtpSecret serial act2 reg policy.
Proof.
  intros H. unfold Node.generateOtpSecret, Node.otpSecretKdfInputs.
  rewrite !residue_slice, H. reflexivity.
Qed.

Lemma residue_last (y : jsstr) c : c <> 45 -> Spec.residue (y ++ [c]) = Spec.normalize y.
Proof.
  intros Hc. unfold Spec.residue, Spec.normalize. rewrite filter_app. cbn [filter].
  rewrite (proj2 (Z.eqb_neq c 45) Hc). apply removelast_last.
Qed.

End Facts.

(** Facts about the URI encoders. *)
Module UriFacts.
Import JS URI.

Lemma encodeURIComponent_app_measure n :
  forall a b la, (length a <= n)%nat -> encodeURIComponent a = Ok la ->
  encodeURIComponent (a ++ b) = let* lb := encodeURIComponent b in Ok (la ++ lb).
Proof.
  induction n as [|n IH]; intros a b la Hn Ha.
  { destruct a; [|simpl in Hn; lia]. injection Ha as <-. cbn [app]. destruct (encodeURIComponent b); reflexivity. }
  destruct a as [|c rest]; [injection Ha as <-; cbn [app]; destruct (encodeURIComponent b); reflexivity|].
  simpl in Hn. cbn [app encodeURIComponent] in Ha |- *.
  destruct (uri_unreserved c).
  { destruct (encodeURIComponent rest) as [r|e] eqn:Er; [|discriminate].
    cbn [bind] in Ha. injection Ha as <-.
    rewrite (IH rest b r) by (lia || exact Er).
    destruct (encodeURIComponent b); reflexivity. }
  destruct (is_low_surrogate c); [discriminate|].
  destruct (is_high_surrogate c).
  { destruct rest as [|d rest']; [discriminate|].
    cbn [app]. destruct (is_low_surrogate d); [|discriminate].
    destruct (encodeURIComponent rest') as [r|e] eqn:Er; [|discriminate].
    cbn [bind] in Ha. injection Ha as <-.
    rewrite (IH rest' b r) by (simpl in Hn; lia || exact Er).
    destruct (encodeURIComponent b); cbn [bind]; [rewrite app_assoc|]; reflexivity. }
  destruct (encodeURIComponent rest) as [r|e] eqn:Er; [|discriminate].
  cbn [bind] in Ha. injection Ha as <-.
  rewrite (IH rest b r) by (lia || exact Er).
  destruct (encodeURIComponent b); cbn [bind]; [rewrite app_assoc|]; reflexivity.
Qed.

Lemma encodeURIComponent_app a b la :
  encodeURIComponent a = Ok la ->
  encodeURIComponent (a ++ b) = let* lb := encodeURIComponent b in Ok (la ++ lb).
Proof. apply (encodeURIComponent_app_measure (length a)). lia. Qed.

Lemma unreserved_ascii c : uri_unreserved c = true -> c < 128.
Proof.
  unfold uri_unreserved, is_alnum, is_digit. cbn [existsb].
  intros H. repeat (apply orb_true_iff in H as [H|H]);
  try (apply andb_true_iff in H as [_ H]; apply Z.leb_le in H; lia);
  try (apply Z.eqb_eq in H; lia); discriminate.
Qed.

Lemma encodeURIComponent_well_formed_measure n :
  forall s, (length s <= n)%nat -> isWellFormed s = true -> exists l, encodeURIComponent s = Ok l.
Proof.
  induction n as [|n IH]; intros s Hn Hs.
  { destruct s; [exists []; reflexivity | simpl in Hn; lia]. }
  destruct s as [|c rest]; [exists []; reflexivity|].
  simpl in Hn. cbn [isWellFormed] in Hs. cbn [encodeURIComponent].
  destruct (is_high_surrogate c) eqn:Hh.
  - destruct rest as [|d rest']; [discriminate|].
    apply andb_true_iff in Hs as [Hd Hs].
    assert (Hl : is_low_surrogate c = false).
    { unfold is_high_surrogate, is_low_surrogate in *.
      apply andb_true_iff in Hh as [_ Hh]. apply Z.leb_le in Hh.
      apply andb_false_iff. left. apply Z.leb_gt. lia. }
    assert (Hu : uri_unreserved c = false).
    { destruct (uri_unreserved c) eqn:Hu; [|reflexivity].
      apply unreserved_ascii in Hu. unfold is_high_surrogate in Hh.
      apply andb_true_iff in Hh as [Hh _]. apply Z.leb_le in Hh. lia. }
    destruct (IH rest' ltac:(simpl in Hn; lia) Hs) as [r Hr].
    rewrite Hu, Hl, Hd, Hr. eexists; reflexivity.
  - destruct (is_low_surrogate c) eqn:Hl; [discriminate|].
    destruct (IH rest ltac:(lia) Hs) as [r Hr]. rewrite Hr.
    destruct (uri_unreserved c); eexists; reflexivity.
Qed.

Lemma encodeURIComponent_well_formed s :
  isWellFormed s = true -> exists l, encodeURIComponent s = Ok l.
Proof. apply (encodeURIComponent_well_formed_measure (length s)). lia. Qed.

(** [':'] is reserved: it is encoded as ["%3A"]. *)
Lemma encodeURIComponent_colon s l :
  encodeURIComponent s = Ok l -> encodeURIComponent (js ":" ++ s) = Ok (js "%3A" ++ l).
Proof.
  intros H. change (js ":" ++ s) with (58 :: s). cbn [encodeURIComponent].
  replace (uri_unreserved 58) with false by reflexivity.
  replace (is_low_surrogate 58) with false by reflexivity.
  replace (is_high_surrogate 58) with false by reflexivity.
  rewrite H. reflexivity.
Qed.

Definition b32_char (c : Z) : Prop := (65 <= c <= 90) \/ (50 <= c <= 55).

Definition b32_charb (c : Z) : bool := ((65 <=? c) && (c <=? 90)) || ((50 <=? c) && (c <=? 55)).

Lemma alphabet_chars : Forall b32_char Base32.alphabet.
Proof.
  assert (H : forallb b32_charb Base32.alphabet = true) by (vm_compute; reflexivity).
  apply Forall_forall. intros c Hc. apply (proj1 (forallb_forall _ _) H) in Hc.
  unfold b32_charb in Hc. unfold b32_char.
  apply orb_true_iff in Hc as [Hc|Hc]; apply andb_true_iff in Hc as [H1 H2];
  apply Z.leb_le in H1, H2; lia.
Qed.

Lemma alphabet_at_land x : b32_char (Base32.alphabet_at (Z.land x 31)).
Proof.
  unfold Base32.alphabet_at.
  assert (H : 0 <= Z.land x 31 < 32).
  { change 31 with (Z.ones 5). rewrite Z.land_ones by lia. apply Z.mod_pos_bound. lia. }
  apply (proj1 (Forall_forall _ _) alphabet_chars). apply nth_In.
  change (length Base32.alphabet) with 32%nat. lia.
Qed.

Lemma drain_chars fuel value bits result :
  Forall b32_char result -> Forall b32_char (fst (Base32.drain fuel value bits result)).
Proof.
  revert bits result. induction fuel as [|f IH]; intros bits result H; [exact H|].
  cbn [Base32.drain]. destruct (5 <=? bits); [|exact H].
  apply IH. apply Forall_app. split; [exact H|]. constructor; [apply alphabet_at_land | constructor].
Qed.

Lemma encode_loop_chars data result bits value :
  Forall b32_char result ->
  Forall b32_char (fst (fst (Base32.encode_loop data result bits value))).
Proof.
  revert result bits value. induction data as [|d data IH]; intros result bits value H; [exact H|].
  cbn [Base32.encode_loop].
  destruct (Base32.drain _ _ _ result) as [result' bits'] eqn:E.
  apply IH. change result' with (fst (result', bits')). rewrite <- E. apply drain_chars. exact H.
Qed.

(** Every character of [base32Encode] is in [A-Z2-7]. *)
Lemma base32Encode_chars data : Forall b32_char (Base32.base32Encode data).
Proof.
  unfold Base32.base32Encode.
  pose proof (encode_loop_chars data [] 0 0 (Forall_nil _)) as H.
  destruct (Base32.encode_loop data [] 0 0) as [[result bits] value]. cbn [fst] in H.
  destruct (0 <? bits); [|exact H].
  apply Forall_app. split; [exact H|]. constructor; [apply alphabet_at_land | constructor].
Qed.

(** The form-urlencoded serializer leaves [A-Z2-7] untouched. *)
Lemma form_urlencode_b32 s : Forall b32_char s -> form_urlencode s = s.
Proof.
  unfold form_urlencode, utf8_encode.
  induction s as [|c s IH]; intros H; [reflexivity|].
  inversion H as [|? ? Hc Hs]; subst.
  unfold b32_char in Hc.
  assert (Hh : is_high_surrogate c = false)
    by (unfold is_high_surrogate; apply andb_false_iff; left; apply Z.leb_gt; lia).
  assert (Hl : is_low_surrogate c = false)
    by (unfold is_low_surrogate; apply andb_false_iff; left; apply Z.leb_gt; lia).
  cbn [code_points]. rewrite Hh, Hl. cbn [flat_map].
  assert (Hu : utf8_of_code_point c = [c]).
  { unfold utf8_of_code_point. replace (c <? 0x80) with true by (symmetry; apply Z.ltb_lt; lia).
    reflexivity. }
  rewrite Hu. cbn [app flat_map].
  assert (Hf : form_byte c = [c]).
  { unfold form_byte.
    replace (c =? 32) with false by (symmetry; apply Z.eqb_neq; lia).
    replace (is_alnum c) with true; [reflexivity|].
    symmetry. unfold is_alnum, is_digit.
    destruct Hc as [Hc|Hc].
    - replace ((65 <=? c) && (c <=? 90)) with true
        by (symmetry; apply andb_true_iff; split; apply Z.leb_le; lia).
      rewrite orb_true_r. reflexivity.
    - replace ((48 <=? c) && (c <=? 57)) with true
        by (symmetry; apply andb_true_iff; split; apply Z.leb_le; lia).
      reflexivity. }
  rewrite Hf, (IH Hs). reflexivity.
Qed.

End UriFacts.

Module Base32Facts.
Import JS.

Definition is_byte (b : Z) : Prop := 0 <= b < 256.

Fixpoint digits32 (k : nat) (x : Z) : jsstr :=
  match k with
  | O => []
  | S k' => Base32.alphabet_at ((x / 2 ^ (5 * Z.of_nat k')) mod 32) :: digits32 k' x
  end.

Lemma digits32_length k x : length (digits32 k x) = k.
Proof. induction k; simpl; congruence. Qed.

Lemma digits32_app k1 k2 x :
  digits32 (k1 + k2) x = digits32 k1 (x / 2 ^ (5 * Z.of_nat k2)) ++ digits32 k2 x.
Proof.
  induction k1 as [|k1 IH]; [reflexivity|].
  cbn [Nat.add digits32 app]. rewrite IH. f_equal. f_equal. f_equal.
  rewrite Z.div_div by (try apply Z.pow_nonzero; try apply Z.pow_pos_nonneg; lia).
  rewrite <- Z.pow_add_r by lia. f_equal. f_equal. lia.
Qed.

Lemma mod_div_digit a b s n :
  0 <= s -> s + 5 <= n -> a mod 2 ^ n = b mod 2 ^ n -> (a / 2 ^ s) mod 32 = (b / 2 ^ s) mod 32.
Proof.
  intros Hs Hn H. change 32 with (2 ^ 5). apply Z.bits_inj'. intros i Hi.
  rewrite !Z.testbit_mod_pow2 by lia. destruct (Z.ltb_spec i 5); [|reflexivity].
  rewrite !andb_true_l, !Z.div_pow2_bits by lia.
  rewrite <- (Z.mod_pow2_bits_low a n), <- (Z.mod_pow2_bits_low b n) by lia.
  rewrite H. reflexivity.
Qed.

Lemma mod_weaken a b n m : 0 <= m <= n -> a mod 2 ^ n = b mod 2 ^ n -> a mod 2 ^ m = b mod 2 ^ m.
Proof.
  intros Hm H. assert (Hd : (2 ^ m | 2 ^ n)).
  { exists (2 ^ (n - m)). rewrite <- Z.pow_add_r by lia. f_equal. lia. }
  rewrite <- (Z.mod_mod_divide a _ _ Hd), <- (Z.mod_mod_divide b _ _ Hd). congruence.
Qed.

Lemma digits32_ext k x y :
  x mod 2 ^ (5 * Z.of_nat k) = y mod 2 ^ (5 * Z.of_nat k) -> digits32 k x = digits32 k y.
Proof.
  induction k as [|k IH]; intros H; [reflexivity|].
  cbn [digits32]. f_equal.
  - f_equal. apply (mod_div_digit _ _ _ (5 * Z.of_nat (S k))); [lia|lia|exact H].
  - apply IH. apply (mod_weaken _ _ (5 * Z.of_nat (S k))); [lia|exact H].
Qed.

Lemma drain_digits fuel q r v Y result :
  0 <= r < 5 -> 5 * Z.of_nat q + r <= 32 -> (q <= fuel)%nat ->
  v mod 2 ^ (5 * Z.of_nat q + r) = Y mod 2 ^ (5 * Z.of_nat q + r) ->
  Base32.drain fuel v (5 * Z.of_nat q + r) result = (result ++ digits32 q (Y / 2 ^ r), r).
Proof.
  revert q result. induction fuel as [|f IH]; intros q result Hr H32 Hq H.
  - assert (q = O) by lia. subst q. cbn [Base32.drain digits32]. rewrite app_nil_r. f_equal; lia.
  - cbn [Base32.drain]. destruct q as [|q].
    + replace (5 <=? 5 * Z.of_nat 0 + r) with false by (symmetry; apply Z.leb_gt; lia).
      rewrite app_nil_r. f_equal; lia.
    + replace (5 <=? 5 * Z.of_nat (S q) + r) with true by (symmetry; apply Z.leb_le; lia).
      replace (5 * Z.of_nat (S q) + r - 5) with (5 * Z.of_nat q + r) by lia.
      assert (H' : v mod 2 ^ (5 * Z.of_nat q + r) = Y mod 2 ^ (5 * Z.of_nat q + r))
        by (apply (mod_weaken _ _ (5 * Z.of_nat (S q) + r)); [lia|exact H]).
      rewrite IH by (first [exact H' | lia]).
      cbn [digits32]. rewrite <- app_assoc. cbn [app]. do 3 f_equal.
      change 31 with (Z.ones 5). rewrite Z.land_ones, Z.shiftr_div_pow2 by lia.
      change (2 ^ 5) with 32.
      rewrite Z.div_div, <- Z.pow_add_r by (try apply Z.pow_nonzero; try apply Z.pow_pos_nonneg; lia).
      replace (r + 5 * Z.of_nat q) with (5 * Z.of_nat q + r) by lia. f_equal.
      apply (mod_div_digit _ _ _ (5 * Z.of_nat (S q) + r)); [lia|lia|].
      unfold ToUint32. rewrite Z.mod_mod_divide; [exact H|].
      exists (2 ^ (32 - (5 * Z.of_nat (S q) + r))). rewrite <- Z.pow_add_r by lia. f_equal. lia.
Qed.
Lemma be_decode_app l1 l2 acc :
  Crypto.be_decode (l1 ++ l2) acc = Crypto.be_decode l2 (Crypto.be_decode l1 acc).
Proof. revert acc. induction l1 as [|b l1 IH]; intros acc; [reflexivity|]. apply IH. Qed.

Lemma byte_high_bits d i : 0 <= d < 256 -> 8 <= i -> Z.testbit d i = false.
Proof.
  intros Hd Hi. rewrite <- (Z.mod_small d 256) by lia. change 256 with (2 ^ 8).
  apply Z.mod_pow2_bits_high. lia.
Qed.

Lemma mul256_add_lor A d : 0 <= d < 256 -> A * 256 + d = Z.lor (Z.shiftl A 8) d.
Proof.
  intros Hd.
  assert (H0 : Z.land (Z.shiftl A 8) d = 0).
  { apply Z.bits_inj'. intros i Hi. rewrite Z.land_spec, Z.bits_0.
    destruct (Z.ltb_spec i 8).
    - rewrite Z.shiftl_spec_low by lia. reflexivity.
    - rewrite (byte_high_bits d i) by lia. apply andb_false_r. }
  rewrite <- Z.lxor_lor, <- Z.add_nocarry_lxor by exact H0.
  rewrite Z.shiftl_mul_pow2 by lia. reflexivity.
Qed.

(** One turn of [value = (value << 8) | data[i]]: the low [bits + 8] bits
    are those of [A * 256 + d]. *)
Lemma step_value value A d bits :
  0 <= bits -> bits + 8 <= 32 -> 0 <= d < 256 ->
  value mod 2 ^ bits = A mod 2 ^ bits ->
  Z.lor (ToInt32 (Z.shiftl (ToInt32 value) 8)) d mod 2 ^ (bits + 8)
  = (A * 256 + d) mod 2 ^ (bits + 8).
Proof.
  intros Hb H32 Hd H. rewrite mul256_add_lor by exact Hd.
  apply Z.bits_inj'. intros i Hi.
  rewrite !Z.testbit_mod_pow2 by lia. destruct (Z.ltb_spec i (bits + 8)); [|reflexivity].
  rewrite !andb_true_l, !Z.lor_spec, Facts.testbit_ToInt32 by lia.
  destruct (Z.ltb_spec i 8).
  - rewrite !Z.shiftl_spec_low by lia. reflexivity.
  - rewrite !Z.shiftl_spec_high by lia. rewrite Facts.testbit_ToInt32 by lia.
    rewrite <- (Z.mod_pow2_bits_low value bits), H, Z.mod_pow2_bits_low by lia. reflexivity.
Qed.

(** The final [(value << (5 - bits)) & 31]. *)
Lemma last_digit value A bits :
  0 < bits < 5 -> value mod 2 ^ bits = A mod 2 ^ bits ->
  Z.land (ToInt32 (Z.shiftl (ToInt32 value) (5 - bits))) 31 = (A * 2 ^ (5 - bits)) mod 32.
Proof.
  intros Hb H. change 31 with (Z.ones 5). rewrite Z.land_ones by lia. change 32 with (2 ^ 5).
  rewrite <- Z.shiftl_mul_pow2 by lia.
  apply Z.bits_inj'. intros i Hi.
  rewrite !Z.testbit_mod_pow2 by lia. destruct (Z.ltb_spec i 5); [|reflexivity].
  rewrite !andb_true_l, Facts.testbit_ToInt32 by lia.
  destruct (Z.ltb_spec i (5 - bits)).
  - rewrite !Z.shiftl_spec_low by lia. reflexivity.
  - rewrite !Z.shiftl_spec_high by lia. rewrite Facts.testbit_ToInt32 by lia.
    rewrite <- (Z.mod_pow2_bits_low value bits), H, Z.mod_pow2_bits_low by lia. reflexivity.
Qed.

Lemma encode_loop_digits data : forall p k bits value result,
  Forall is_byte data -> 0 <= bits < 5 ->
  8 * Z.of_nat (length p) = 5 * Z.of_nat k + bits ->
  result = digits32 k (Crypto.be_decode p 0 / 2 ^ bits) ->
  value mod 2 ^ bits = Crypto.be_decode p 0 mod 2 ^ bits ->
  exists k' bits' value',
    Base32.encode_loop data result bits value
    = (digits32 k' (Crypto.be_decode (p ++ data) 0 / 2 ^ bits'), bits', value') /\
    0 <= bits' < 5 /\ 8 * Z.of_nat (length (p ++ data)) = 5 * Z.of_nat k' + bits' /\
    value' mod 2 ^ bits' = Crypto.be_decode (p ++ data) 0 mod 2 ^ bits'.
Proof.
  induction data as [|d rest IH]; intros p k bits value result Hf Hb Hl Hr Hv.
  { exists k, bits, value. rewrite app_nil_r. subst result. auto. }
  subst result. inversion Hf as [|? ? Hd Hrest]; subst. unfold is_byte in Hd.
  cbn [Base32.encode_loop].
  set (A := Crypto.be_decode p 0).
  set (v' := Z.lor (ToInt32 (Z.shiftl (ToInt32 value) 8)) d).
  set (q := Z.to_nat ((bits + 8) / 5)). set (r := (bits + 8) mod 5).
  assert (HB : bits + 8 = 5 * Z.of_nat q + r).
  { unfold q, r. rewrite Z2Nat.id by (apply Z.div_pos; lia). apply Z.div_mod. lia. }
  assert (Hr5 : 0 <= r < 5) by (unfold r; apply Z.mod_pos_bound; lia).
  assert (HA' : Crypto.be_decode (p ++ [d]) 0 = A * 256 + d) by (rewrite be_decode_app; reflexivity).
  assert (Hv' : v' mod 2 ^ (5 * Z.of_nat q + r) = (A * 256 + d) mod 2 ^ (5 * Z.of_nat q + r)).
  { rewrite <- HB. apply step_value; [lia|lia|lia|exact Hv]. }
  rewrite HB. rewrite (drain_digits _ q r v' (A * 256 + d)) by (try exact Hv'; lia).
  assert (Hres : digits32 k (A / 2 ^ bits) ++ digits32 q ((A * 256 + d) / 2 ^ r) = digits32 (k + q) ((A * 256 + d) / 2 ^ r)).
  { rewrite digits32_app. f_equal. f_equal.
    rewrite Z.div_div, <- Z.pow_add_r by (try apply Z.pow_nonzero; try apply Z.pow_pos_nonneg; lia).
    replace (r + 5 * Z.of_nat q) with (8 + bits) by lia.
    rewrite Z.pow_add_r, <- Z.div_div by (try apply Z.pow_nonzero; try apply Z.pow_pos_nonneg; lia).
    change (2 ^ 8) with 256. rewrite Z.div_add_l, (Z.div_small d 256) by lia.
    rewrite Z.add_0_r. reflexivity. }
  rewrite Hres, <- HA'.
  destruct (IH (p ++ [d]) (k + q)%nat r v' (digits32 (k + q) (Crypto.be_decode (p ++ [d]) 0 / 2 ^ r)) Hrest Hr5) as (k' & bits' & value' & Heq & H1 & H2 & H3).
  - rewrite length_app. cbn [length]. lia.
  - reflexivity.
  - rewrite HA'. apply (Base32Facts.mod_weaken _ _ (5 * Z.of_nat q + r)); [lia|exact Hv'].
  - exists k', bits', value'. rewrite <- app_assoc in Heq, H2, H3. cbn [app] in Heq, H2, H3.
    split; [exact Heq|]. auto.
Qed.

(** Closed form: [base32Encode data] is the [m] base-32 digits of the
    big-endian value of [data] shifted left by [pad] zero bits. *)
Lemma base32Encode_closed data :
  Forall is_byte data ->
  exists m pad, 0 <= pad < 5 /\ 8 * Z.of_nat (length data) + pad = 5 * Z.of_nat m /\
    Base32.base32Encode data = digits32 m (Crypto.be_decode data 0 * 2 ^ pad).
Proof.
  intros Hf. unfold Base32.base32Encode.
  destruct (encode_loop_digits data (@nil Z) 0 0 0 (@nil Z) Hf) as (k & bits & value & Heq & Hb & Hl & Hv);
    [lia | reflexivity | reflexivity | reflexivity |].
  rewrite Heq. cbn [app] in Hl, Hv |- *.
  destruct (Z.ltb_spec 0 bits).
  - exists (k + 1)%nat, (5 - bits). split; [lia|]. split; [lia|].
    rewrite digits32_app. f_equal.
    + f_equal. change (5 * Z.of_nat 1) with 5.
      replace (2 ^ 5) with (2 ^ (5 - bits) * 2 ^ bits) by (rewrite <- Z.pow_add_r by lia; f_equal; lia).
      rewrite Z.mul_comm, Z.div_mul_cancel_l by (apply Z.pow_nonzero; lia). reflexivity.
    + cbn [digits32]. rewrite (last_digit value (Crypto.be_decode data 0) bits) by (first [lia | exact Hv]).
      change (2 ^ (5 * Z.of_nat 0)) with 1. rewrite Z.div_1_r. reflexivity.
  - exists k, 0. assert (bits = 0) by lia. subst bits.
    split; [lia|]. split; [lia|]. rewrite Z.mul_1_r. change (2 ^ 0) with 1. rewrite Z.div_1_r. reflexivity.
Qed.
Lemma be_decode_acc l acc :
  Crypto.be_decode l acc = acc * 2 ^ (8 * Z.of_nat (length l)) + Crypto.be_decode l 0.
Proof.
  revert acc. induction l as [|b l IH]; intros acc.
  - cbn. lia.
  - cbn [Crypto.be_decode length]. rewrite (IH (acc * 256 + b)), (IH (0 * 256 + b)).
    rewrite Nat2Z.inj_succ, Z.mul_succ_r, Z.pow_add_r by lia. change (2 ^ 8) with 256. ring.
Qed.

Lemma be_decode_bound l :
  Forall is_byte l -> 0 <= Crypto.be_decode l 0 < 2 ^ (8 * Z.of_nat (length l)).
Proof.
  induction l as [|b l IH] using rev_ind; intros Hf; [cbn; lia|].
  apply Forall_app in Hf as [Hl Hb]. inversion Hb as [|? ? Hb' _]; subst. unfold is_byte in Hb'.
  specialize (IH Hl). rewrite be_decode_app, length_app. cbn [Crypto.be_decode length].
  rewrite Nat2Z.inj_add, Z.mul_add_distr_l, Z.pow_add_r by lia. change (2 ^ (8 * Z.of_nat 1)) with 256.
  nia.
Qed.

Lemma be_encode_decode l :
  Forall is_byte l -> Crypto.be_encode (length l) (Crypto.be_decode l 0) = l.
Proof.
  induction l as [|b l IH] using rev_ind; intros Hf; [reflexivity|].
  apply Forall_app in Hf as [Hl Hb]. inversion Hb as [|? ? Hb' _]; subst. unfold is_byte in Hb'.
  rewrite be_decode_app, length_app, Nat.add_1_r. cbn [Crypto.be_encode Crypto.be_decode].
  pose proof (be_decode_bound l Hl).
  f_equal.
  - rewrite Z.shiftr_div_pow2 by lia. change (2 ^ 8) with 256.
    rewrite Z.div_add_l, (Z.div_small b 256), Z.add_0_r by lia. apply IH. exact Hl.
  - change 255 with (Z.ones 8). rewrite Z.land_ones by lia. change (2 ^ 8) with 256.
    rewrite Z.add_comm, Z.mod_add, Z.mod_small by lia. reflexivity.
Qed.

Lemma index_of_alphabet j : 0 <= j < 32 -> Ref.index_of (Base32.alphabet_at j) = j.
Proof.
  intros Hj. unfold Base32.alphabet_at.
  assert (H : forall n, (n < 32)%nat -> Ref.index_of (nth n Base32.alphabet 0) = Z.of_nat n).
  { intros n Hn. do 32 (destruct n as [|n]; [reflexivity|]). lia. }
  rewrite H by lia. apply Z2Nat.id. lia.
Qed.

Lemma digits32_value k x acc :
  fold_left (fun acc c => acc * 32 + Ref.index_of c) (digits32 k x) acc
  = acc * 2 ^ (5 * Z.of_nat k) + x mod 2 ^ (5 * Z.of_nat k).
Proof.
  revert acc. induction k as [|k IH]; intros acc.
  - cbn. rewrite Z.mod_1_r. lia.
  - cbn [digits32 fold_left]. rewrite IH, index_of_alphabet by (apply Z.mod_pos_bound; lia).
    replace (5 * Z.of_nat (S k)) with (5 * Z.of_nat k + 5) by lia.
    rewrite Z.pow_add_r by lia. change (2 ^ 5) with 32.
    rewrite Z.rem_mul_r by (try apply Z.pow_nonzero; lia). ring.
Qed.

End Base32Facts.

Module PackFacts.
Import JS Base32Facts.

Lemma length_set_index (arr : bytes) i v : length (set_index arr i v) = length arr.
Proof. revert i; induction arr as [|h t IH]; intros [|i]; cbn; auto. Qed.

Lemma skipn_set_index (arr : bytes) i v :
  (i < length arr)%nat -> skipn i (set_index arr i v) = v :: skipn (S i) arr.
Proof.
  revert i. induction arr as [|h t IH]; intros i Hi; [cbn in Hi; lia|].
  destruct i as [|i]; [reflexivity|]. cbn [set_index skipn]. apply IH. cbn in Hi; lia.
Qed.

Lemma land255_byte z : 0 <= Z.land z 255 < 256.
Proof. change 255 with (Z.ones 8). rewrite Z.land_ones by lia. apply Z.mod_pos_bound; lia. Qed.

Lemma ToUint8_land255 z : ToUint8 (Z.land z 255) = Z.land z 255.
Proof. unfold ToUint8. apply Z.mod_small. apply land255_byte. Qed.

Lemma bigIntToBytes_loop_be i num (arr : bytes) :
  (i <= length arr)%nat ->
  Browser.bigIntToBytes_loop i num arr = Crypto.be_encode i num ++ skipn i arr.
Proof.
  revert num arr. induction i as [|i IH]; intros num arr Hi; [reflexivity|].
  cbn [Browser.bigIntToBytes_loop Crypto.be_encode].
  rewrite IH by (rewrite length_set_index; lia).
  rewrite skipn_set_index by lia. rewrite ToUint8_land255, <- app_assoc. reflexivity.
Qed.

Lemma bigIntToBytes_be num k : Browser.bigIntToBytes num k = Crypto.be_encode k num.
Proof.
  unfold Browser.bigIntToBytes. rewrite bigIntToBytes_loop_be by (rewrite repeat_length; lia).
  rewrite skipn_all2 by (rewrite repeat_length; lia). apply app_nil_r.
Qed.

Lemma be_encode_bytes k v : Forall is_byte (Crypto.be_encode k v).
Proof.
  revert v; induction k as [|k IH]; intros v; [constructor|]. cbn [Crypto.be_encode].
  apply Forall_app; split; [apply IH|]. constructor; [apply land255_byte | constructor].
Qed.

Lemma be_decode_encode k v : Crypto.be_decode (Crypto.be_encode k v) 0 = v mod 2 ^ (8 * Z.of_nat k).
Proof.
  revert v; induction k as [|k IH]; intros v; [cbn; rewrite Z.mod_1_r; reflexivity|].
  cbn [Crypto.be_encode]. rewrite be_decode_app, IH. cbn [Crypto.be_decode].
  change 255 with (Z.ones 8). rewrite Z.land_ones, Z.shiftr_div_pow2 by lia.
  replace (2 ^ (8 * Z.of_nat (S k))) with (2 ^ 8 * 2 ^ (8 * Z.of_nat k))
    by (rewrite <- Z.pow_add_r by lia; f_equal; lia).
  rewrite Z.rem_mul_r by lia. ring.
Qed.

Lemma be_encode_mod k v : Crypto.be_encode k (v mod 2 ^ (8 * Z.of_nat k)) = Crypto.be_encode k v.
Proof.
  rewrite <- (be_encode_decode (Crypto.be_encode k v)) by apply be_encode_bytes.
  rewrite Facts.be_encode_length, be_decode_encode. reflexivity.
Qed.

Lemma uint32ToBytes_be n : Browser.uint32ToBytes n = Crypto.be_encode 4 (num_ToUint32 n).
Proof.
  destruct n as [|z|neg]; [reflexivity| |reflexivity].
  rewrite Facts.uint32ToBytes_Num, <- (be_encode_mod 4 z). reflexivity.
Qed.

Lemma residue_browser (code : jsstr) : slice_drop_last (Browser.parseCode code) = Spec.residue code.
Proof. apply Facts.slice_drop_last_removelast. Qed.

(** With a digit/hyphen activation code the browser derivation always
    returns a 16-byte key. *)
Lemma browser_secret_ok serial act reg policy :
  Spec.digit_hyphen act = true ->
  exists key, Browser.generateOtpSecret serial act reg policy = Ok key /\ length key = 16%nat.
Proof.
  intros H. unfold Browser.generateOtpSecret, Browser.otpSecretKdfInputs.
  rewrite residue_browser.
  destruct (Facts.BigInt_digits _ (Facts.residue_digits _ H)) as (v & _ & Hv).
  rewrite Hv. cbn [bind]. eexists. split; [reflexivity|].
  unfold Browser.pbkdf2. apply Facts.pbkdf2_16_length.
Qed.

(** Node raises RangeError on a registration residue of value [2^32] or more. *)
Lemma node_registration_range serial act reg policy r :
  Spec.digit_hyphen act = true ->
  Spec.decimal_value (Spec.residue reg) = Some r -> 2 ^ 32 <= r ->
  Node.generateOtpSecret serial act reg policy = Throw RangeError.
Proof.
  intros Hact Hr H32. unfold Node.generateOtpSecret, Node.otpSecretKdfInputs.
  rewrite !Facts.residue_slice.
  destruct (Facts.BigInt_digits _ (Facts.residue_digits _ Hact)) as (v & Hv0 & Hv).
  rewrite Hv. cbn [bind].
  destruct (Z_le_gt_dec v 0xffffffffffffffff) as [Hle|Hgt].
  - rewrite Facts.writeBigUInt64BE_alloc by lia. cbn [bind].
    rewrite (Facts.parseInt_decimal_number _ _ Hr), Facts.writeUInt32BE_to_number_range by lia. reflexivity.
  - rewrite Facts.writeBigUInt64BE_range by lia. reflexivity.
Qed.

(** Node and the browser agree while the values fit the Node buffers. *)
Lemma node_browser_small serial act reg policy a r :
  Spec.decimal_value (Spec.residue act) = Some a -> a < 2 ^ 64 ->
  Spec.decimal_value (Spec.residue reg) = Some r -> r < 2 ^ 32 ->
  Node.generateOtpSecret serial act reg policy = Browser.generateOtpSecret serial act reg policy.
Proof.
  intros Ha Ha64 Hr Hr32.
  pose proof (Facts.decimal_value_nonneg _ _ Ha). pose proof (Facts.decimal_value_nonneg _ _ Hr).
  unfold Node.generateOtpSecret, Node.otpSecretKdfInputs,
    Browser.generateOtpSecret, Browser.otpSecretKdfInputs.
  rewrite !Facts.residue_slice, ?residue_browser.
  rewrite (Facts.BigInt_decimal _ _ Ha). cbn [bind].
  rewrite Facts.writeBigUInt64BE_alloc by lia. cbn [bind].
  rewrite (Facts.parseInt_decimal _ _ Hr), Facts.writeUInt32BE_alloc by lia. cbn [bind].
  rewrite Facts.bigIntToBytes_8, Facts.uint32ToBytes_Num.
  unfold subarray, Browser.u8_slice, Browser.concatBytes, Browser.stringToUtf8Bytes,
    Browser.pbkdf2, Node.pbkdf2Sync, Node.parseCode, Browser.parseCode.
  destruct (Nat.ltb 0 (length policy)); cbn [concat]; rewrite ?app_nil_r; reflexivity.
Qed.

Lemma removelast_length (l : jsstr) : length (removelast l) = (length l - 1)%nat.
Proof.
  induction l as [|a l IH]; [reflexivity|]. destruct l as [|b l]; [reflexivity|].
  change (removelast (a :: b :: l)) with (a :: removelast (b :: l)).
  cbn [length] in *. rewrite IH. lia.
Qed.

Lemma fold_dec_bound (s : jsstr) acc :
  forallb is_digit s = true -> 0 <= acc ->
  fold_left Facts.fold_dec s acc < (acc + 1) * 10 ^ Z.of_nat (length s).
Proof.
  revert acc. induction s as [|c s IH]; intros acc Hs Hacc; [cbn; lia|].
  cbn [forallb] in Hs. apply andb_true_iff in Hs as [Hc Hs].
  unfold is_digit in Hc. apply andb_true_iff in Hc as [H1 H2]. apply Z.leb_le in H1, H2.
  cbn [fold_left length]. unfold Facts.fold_dec at 2.
  specialize (IH (acc * 10 + (c - 48)) Hs ltac:(lia)).
  rewrite Nat2Z.inj_succ, Z.pow_succ_r by lia.
  assert (0 < 10 ^ Z.of_nat (length s)) by (apply Z.pow_pos_nonneg; lia).
  nia.
Qed.

(** A residue of a digit/hyphen code with [n + 1] digits has a value below [10^n]. *)
Lemma residue_value code :
  Spec.digit_hyphen code = true -> (2 <= length (Spec.normalize code))%nat ->
  exists v, Spec.decimal_value (Spec.residue code) = Some v /\
            0 <= v < 10 ^ Z.of_nat (length (Spec.normalize code) - 1).
Proof.
  intros Hd Hn. pose proof (Facts.residue_digits _ Hd) as Hr.
  pose proof (removelast_length (Spec.normalize code)) as Hl.
  unfold Spec.residue in *. rewrite <- Hl.
  destruct (removelast (Spec.normalize code)) as [|c s] eqn:E; [cbn in Hl; lia|].
  exists (fold_left Facts.fold_dec (c :: s) 0). split.
  - unfold Spec.decimal_value. rewrite Hr. reflexivity.
  - split; [apply Facts.fold_dec_nonneg; [exact Hr | lia]|].
    pose proof (fold_dec_bound (c :: s) 0 Hr ltac:(lia)). lia.
Qed.

(** What [validateInputs] returning [null] guarantees. *)
Lemma validate_ok i :
  BrowserUI.validateInputs i = None ->
  Spec.digit_hyphen (BrowserUI.serial i) = true /\
  Spec.digit_hyphen (BrowserUI.activationCode i) = true /\
  Spec.digit_hyphen (BrowserUI.registrationCode i) = true /\
  BrowserUI.truthy (BrowserUI.accountName i) = true /\
  (5 <= length (Spec.normalize (BrowserUI.serial i)) <= 20)%nat /\
  (10 <= length (Spec.normalize (BrowserUI.activationCode i)) <= 20)%nat /\
  (5 <= length (Spec.normalize (BrowserUI.registrationCode i)) <= 15)%nat.
Proof.
  unfold BrowserUI.validateInputs. cbv zeta. intros H.
  repeat match type of H with
         | context [if ?b then _ else _] =>
             let E := fresh "E" in destruct b eqn:E; [discriminate|]
         end.
  unfold BrowserUI.digits_hyphens_test in *.
  repeat match goal with
         | E : _ || _ = false |- _ => apply orb_false_iff in E as [? ?]
         | E : negb _ = false |- _ => apply negb_false_iff in E
         | E : _ && _ = true |- _ => apply andb_true_iff in E as [? ?]
         | E : Nat.ltb _ _ = false |- _ => apply Nat.ltb_ge in E
         end.
  unfold Browser.parseCode, replace_hyphens in *. unfold Spec.digit_hyphen, Spec.normalize.
  repeat split; assumption || lia.
Qed.

End PackFacts.

Module UiFacts.
Import JS URI PackFacts.

Lemma whitespace_not_surrogate c :
  is_js_whitespace c = true -> is_high_surrogate c = false /\ is_low_surrogate c = false.
Proof.
  unfold is_js_whitespace, is_high_surrogate, is_low_surrogate. cbn [existsb]. intros H.
  assert (Hc : c < 0xD800 \/ 0xDFFF < c).
  { repeat (apply orb_true_iff in H as [H|H]);
      try (apply Z.eqb_eq in H; lia);
      try (apply andb_true_iff in H as [_ H]; apply Z.leb_le in H; lia);
      discriminate. }
  split; apply andb_false_iff; destruct Hc; [left|right|left|right]; apply Z.leb_gt; lia.
Qed.

Lemma wf_prefix_plain (p t : jsstr) :
  forallb (fun c => negb (is_high_surrogate c) && negb (is_low_surrogate c)) p = true ->
  isWellFormed (p ++ t) = isWellFormed t.
Proof.
  induction p as [|c p IH]; intros H; [reflexivity|].
  cbn [forallb] in H. apply andb_true_iff in H as [Hc H]. apply andb_true_iff in Hc as [Hh Hl].
  apply negb_true_iff in Hh, Hl. cbn [app isWellFormed]. rewrite Hh, Hl. apply IH, H.
Qed.

Lemma wf_app_measure n :
  forall (a b : jsstr), (length a <= n)%nat ->
  (forall x, hd_error b = Some x -> is_low_surrogate x = false) ->
  isWellFormed (a ++ b) = isWellFormed a && isWellFormed b.
Proof.
  induction n as [|n IH]; intros a b Hn Hb.
  { destruct a; [reflexivity | cbn in Hn; lia]. }
  destruct a as [|c a]; [reflexivity|]. cbn in Hn. cbn [app isWellFormed].
  destruct (is_high_surrogate c).
  - destruct a as [|d a].
    + cbn [app]. destruct b as [|d b]; [reflexivity|]. rewrite (Hb d eq_refl). reflexivity.
    + cbn [app]. rewrite (IH a b) by (cbn in Hn; lia || exact Hb). apply andb_assoc.
  - destruct (is_low_surrogate c); [reflexivity|]. apply IH; [lia | exact Hb].
Qed.

Lemma whitespace_plain (p : jsstr) :
  forallb is_js_whitespace p = true ->
  forallb (fun c => negb (is_high_surrogate c) && negb (is_low_surrogate c)) p = true.
Proof.
  intros H. apply forallb_forall. intros x Hx.
  destruct (whitespace_not_surrogate x (proj1 (forallb_forall _ _) H x Hx)) as [-> ->].
  reflexivity.
Qed.

(** [trim] keeps a string well formed. *)
Lemma trim_well_formed (s : jsstr) : isWellFormed s = true -> isWellFormed (trim s) = true.
Proof.
  intros Hs. unfold trim.
  destruct (Facts.trim_start_split s) as (p1 & E1 & W1).
  set (u := trim_start s) in *.
  assert (Hu : isWellFormed u = true).
  { rewrite E1, (wf_prefix_plain _ _ (whitespace_plain _ W1)) in Hs. exact Hs. }
  destruct (Facts.trim_start_split (rev u)) as (p2 & E2 & W2).
  set (v := trim_start (rev u)) in *.
  assert (Eu : u = rev v ++ rev p2) by (rewrite <- rev_app_distr, <- E2, rev_involutive; reflexivity).
  rewrite Eu, (wf_app_measure (length (rev v))) in Hu.
  - apply andb_true_iff in Hu as [Hu _]. exact Hu.
  - lia.
  - intros x Hx. destruct (rev p2) as [|y q] eqn:Ep; [discriminate|].
    injection Hx as <-. assert (Hy : In y (rev p2)) by (rewrite Ep; left; reflexivity).
    apply in_rev in Hy. exact (proj2 (whitespace_not_surrogate y (proj1 (forallb_forall _ _) W2 y Hy))).
Qed.

Lemma fffd_plain : is_high_surrogate 0xFFFD = false /\ is_low_surrogate 0xFFFD = false.
Proof. split; reflexivity. Qed.

(** Form values are scalar value strings. *)
Lemma toUSVString_well_formed_measure n :
  forall s, (length s <= n)%nat -> isWellFormed (BrowserUI.toUSVString s) = true.
Proof.
  induction n as [|n IH]; intros s Hn.
  { destruct s; [reflexivity | cbn in Hn; lia]. }
  destruct s as [|c rest]; [reflexivity|]. cbn in Hn. cbn [BrowserUI.toUSVString].
  destruct (is_high_surrogate c) eqn:Hh.
  - destruct rest as [|d rest']; [reflexivity|].
    destruct (is_low_surrogate d) eqn:Hl.
    + cbn [isWellFormed]. rewrite Hh, Hl. apply IH. cbn in Hn; lia.
    + cbn [isWellFormed]. replace (is_high_surrogate 0xFFFD) with false by reflexivity.
      replace (is_low_surrogate 0xFFFD) with false by reflexivity. apply IH. cbn; cbn in Hn; lia.
  - destruct (is_low_surrogate c) eqn:Hl.
    + cbn [isWellFormed]. replace (is_high_surrogate 0xFFFD) with false by reflexivity.
      replace (is_low_surrogate 0xFFFD) with false by reflexivity. apply IH. lia.
    + cbn [isWellFormed]. rewrite Hh, Hl. apply IH. lia.
Qed.

Lemma toUSVString_well_formed s : isWellFormed (BrowserUI.toUSVString s) = true.
Proof. apply (toUSVString_well_formed_measure (length s)). lia. Qed.

Lemma form_value_well_formed s : isWellFormed (trim (BrowserUI.toUSVString s)) = true.
Proof. apply trim_well_formed, toUSVString_well_formed. Qed.

Lemma encode_label_ok issuer accountName :
  isWellFormed issuer = true -> isWellFormed accountName = true ->
  exists l, encodeURIComponent (issuer ++ js ":" ++ accountName) = Ok l.
Proof.
  intros Hi Ha.
  destruct (UriFacts.encodeURIComponent_well_formed issuer Hi) as [li Hli].
  destruct (UriFacts.encodeURIComponent_well_formed accountName Ha) as [la Hla].
  rewrite (UriFacts.encodeURIComponent_app issuer _ li Hli).
  rewrite (UriFacts.encodeURIComponent_colon accountName la Hla). cbn [bind]. eauto.
Qed.

Lemma browser_uri_ok issuer accountName secret :
  isWellFormed issuer = true -> isWellFormed accountName = true ->
  exists uri, Browser.generateOtpauthUri issuer accountName secret = Ok uri /\
              Node.generateOtpauthUri issuer accountName secret = Ok uri.
Proof.
  intros Hi Ha. destruct (encode_label_ok issuer accountName Hi Ha) as [l Hl].
  unfold Browser.generateOtpauthUri, Node.generateOtpauthUri. rewrite Hl. cbn [bind].
  eexists; split; reflexivity.
Qed.

(** [main] on five non-empty arguments. *)
Lemma main_args s a g n iss e :
  s <> [] -> a <> [] -> g <> [] -> n <> [] -> iss <> [] ->
  Cli.main [s; a; g; n; iss] e =
  match Node.generateOtpSecret s a g [] with
  | Throw err => Cli.Failed err
  | Ok k => match Node.generateOtpauthUri iss n k with
            | Throw err => Cli.Failed err
            | Ok u => Cli.Printed u
            end
  end.
Proof.
  intros Hs Ha Hg Hn Hi.
  destruct s, a, g, n, iss; try congruence; reflexivity.
Qed.

(** [handleFormSubmit] on values that trimming leaves as they are. *)
Lemma form_fields s a g n iss :
  trim (BrowserUI.toUSVString s) = s -> trim (BrowserUI.toUSVString a) = a ->
  trim (BrowserUI.toUSVString g) = g -> trim (BrowserUI.toUSVString n) = n ->
  trim (BrowserUI.toUSVString iss) = iss -> iss <> [] ->
  BrowserUI.handleFormSubmit (BrowserUI.mkForm s a g n iss) =
  match BrowserUI.validateInputs (BrowserUI.mkInputs s a g n iss) with
  | Some e => BrowserUI.ShowError (BrowserUI.Validation e)
  | None =>
      match Browser.generateOtpSecret s a g [] with
      | Throw e => BrowserUI.ShowError (BrowserUI.GenerationFailed e)
      | Ok k => match Browser.generateOtpauthUri iss n k with
                | Throw e => BrowserUI.ShowError (BrowserUI.GenerationFailed e)
                | Ok uri => BrowserUI.ShowResult uri
                end
      end
  end.
Proof.
  intros Hs Ha Hg Hn Hi Hne. unfold BrowserUI.handleFormSubmit. cbv zeta.
  cbn [BrowserUI.f_serial BrowserUI.f_activationCode BrowserUI.f_registrationCode
       BrowserUI.f_accountName BrowserUI.f_issuer].
  rewrite Hs, Ha, Hg, Hn, Hi.
  destruct iss as [|c iss]; [congruence|]. reflexivity.
Qed.

Lemma length_normalize_nonempty (s : jsstr) : (1 <= length (Spec.normalize s))%nat -> s <> [].
Proof. intros H ->. cbn in H. lia. Qed.

(** [encodeURIComponent] throws a URIError on every string with an
    unpaired surrogate. *)
Lemma encodeURIComponent_ill_formed_measure n :
  forall s, (length s <= n)%nat -> isWellFormed s = false -> encodeURIComponent s = Throw URIError.
Proof.
  induction n as [|n IH]; intros s Hn Hs.
  { destruct s; [discriminate | simpl in Hn; lia]. }
  destruct s as [|c rest]; [discriminate|].
  simpl in Hn. cbn [isWellFormed] in Hs. cbn [encodeURIComponent].
  assert (Hu : (is_high_surrogate c || is_low_surrogate c) = true -> uri_unreserved c = false).
  { intros H. destruct (uri_unreserved c) eqn:Hu; [|reflexivity].
    apply UriFacts.unreserved_ascii in Hu. unfold is_high_surrogate, is_low_surrogate in H.
    apply orb_true_iff in H as [H|H]; apply andb_true_iff in H as [H _]; apply Z.leb_le in H; lia. }
  destruct (is_high_surrogate c) eqn:Hh.
  - rewrite Hu by (rewrite ?Hh; reflexivity).
    assert (Hl : is_low_surrogate c = false).
    { unfold is_high_surrogate, is_low_surrogate in *.
      apply andb_true_iff in Hh as [_ Hh]. apply Z.leb_le in Hh.
      apply andb_false_iff. left. apply Z.leb_gt. lia. }
    rewrite Hl. destruct rest as [|d rest']; [reflexivity|].
    destruct (is_low_surrogate d); [|reflexivity].
    rewrite (IH rest') by (simpl in Hn; lia || exact Hs). reflexivity.
  - destruct (is_low_surrogate c) eqn:Hl.
    + rewrite Hu by (rewrite ?Hl; apply orb_true_r). reflexivity.
    + rewrite (IH rest) by (lia || exact Hs). destruct (uri_unreserved c); reflexivity.
Qed.

(** The label [issuer:accountName] is well formed exactly when both parts
    are, so a lone surrogate in either makes its encoding throw. *)
Lemma label_ill_formed (issuer accountName : jsstr) :
  isWellFormed issuer = false \/ isWellFormed accountName = false ->
  encodeURIComponent (issuer ++ js ":" ++ accountName) = Throw URIError.
Proof.
  intros H. apply (encodeURIComponent_ill_formed_measure (length (issuer ++ js ":" ++ accountName))); [lia|].
  rewrite (wf_app_measure (length issuer)) by (lia || (intros x Hx; injection Hx as <-; reflexivity)).
  change (isWellFormed (js ":" ++ accountName)) with (isWellFormed accountName).
  destruct H as [H|H]; rewrite H; [reflexivity | apply andb_false_r].
Qed.

End UiFacts.

Module UriShape.
Import JS URI.

(** The URI delimiters [#], [&], [=] and [?]. *)
Definition delim (c : Z) : bool := existsb (Z.eqb c) [35; 38; 61; 63].

Definition plain (l : jsstr) : Prop := Forall (fun c => delim c = false) l.

Lemma delim_false x : x <> 35 -> x <> 38 -> x <> 61 -> x <> 63 -> delim x = false.
Proof.
  intros H1 H2 H3 H4. unfold delim. cbn [existsb].
  rewrite (proj2 (Z.eqb_neq _ _) H1), (proj2 (Z.eqb_neq _ _) H2),
    (proj2 (Z.eqb_neq _ _) H3), (proj2 (Z.eqb_neq _ _) H4). reflexivity.
Qed.

Lemma hex_upper_plain d : 0 <= d -> delim (hex_upper d) = false.
Proof. intros Hd. unfold hex_upper. destruct (Z.ltb_spec d 10); apply delim_false; lia. Qed.

Lemma percent_byte_plain b : 0 <= b -> plain (percent_byte b).
Proof.
  intros Hb. unfold percent_byte, plain.
  constructor; [apply delim_false; lia|].
  constructor; [apply hex_upper_plain, Z.shiftr_nonneg; lia|].
  constructor; [apply hex_upper_plain, Z.land_nonneg; lia | constructor].
Qed.

Lemma flat_map_percent_plain (l : bytes) :
  Forall (fun b => 0 <= b) l -> plain (flat_map percent_byte l).
Proof.
  induction l as [|b l IH]; intros H; [constructor|]. inversion H; subst.
  cbn [flat_map]. apply Forall_app. split; [apply percent_byte_plain; assumption | apply IH; assumption].
Qed.

Lemma land63_range x : 0 <= Z.land x 63 < 64.
Proof. change 63 with (Z.ones 6). rewrite Z.land_ones by lia. apply Z.mod_pos_bound; lia. Qed.

Lemma utf8_of_code_point_nonneg cp : 0 <= cp -> Forall (fun b => 0 <= b) (utf8_of_code_point cp).
Proof.
  intros H. unfold utf8_of_code_point.
  pose proof (land63_range cp). pose proof (land63_range (Z.shiftr cp 6)).
  pose proof (land63_range (Z.shiftr cp 12)).
  assert (0 <= Z.shiftr cp 6) by (apply Z.shiftr_nonneg; lia).
  assert (0 <= Z.shiftr cp 12) by (apply Z.shiftr_nonneg; lia).
  assert (0 <= Z.shiftr cp 18) by (apply Z.shiftr_nonneg; lia).
  destruct (cp <? 0x80); [repeat constructor; lia|].
  destruct (cp <? 0x800); [repeat constructor; lia|].
  destruct (cp <? 0x10000); repeat constructor; lia.
Qed.

Lemma code_points_nonneg_measure n :
  forall s, (length s <= n)%nat -> Forall (fun c => 0 <= c) s ->
  Forall (fun c => 0 <= c) (code_points s).
Proof.
  induction n as [|n IH]; intros s Hn Hs.
  { destruct s; [constructor | cbn in Hn; lia]. }
  destruct s as [|c rest]; [constructor|]. cbn in Hn.
  inversion Hs as [|? ? Hc Hr]; subst. cbn [code_points].
  destruct (is_high_surrogate c) eqn:Hh.
  - destruct rest as [|d rest']; [repeat constructor; lia|].
    inversion Hr as [|? ? Hd Hr']; subst.
    destruct (is_low_surrogate d) eqn:Hl.
    + constructor.
      * unfold pair_code_point, is_high_surrogate, is_low_surrogate in *.
        apply andb_true_iff in Hh as [Hh _]. apply andb_true_iff in Hl as [Hl _].
        apply Z.leb_le in Hh, Hl. lia.
      * apply IH; [cbn in Hn; lia | exact Hr'].
    + constructor; [lia|]. apply IH; [cbn in Hn |- *; lia | exact Hr].
  - assert (Hrest : Forall (fun c => 0 <= c) (code_points rest)) by (apply IH; [lia | exact Hr]).
    destruct (is_low_surrogate c); constructor; first [exact Hrest | lia].
Qed.

Lemma utf8_encode_nonneg s : Forall (fun c => 0 <= c) s -> Forall (fun b => 0 <= b) (utf8_encode s).
Proof.
  intros H. unfold utf8_encode.
  pose proof (code_points_nonneg_measure (length s) s (le_n _) H) as Hc.
  induction (code_points s) as [|cp l IH]; [constructor|]. inversion Hc; subst.
  cbn [flat_map]. apply Forall_app. split; [apply utf8_of_code_point_nonneg; assumption | apply IH; assumption].
Qed.

Lemma unreserved_plain c : uri_unreserved c = true -> delim c = false.
Proof.
  unfold uri_unreserved, is_alnum, is_digit. cbn [existsb]. intros H.
  apply delim_false; intros ->; discriminate H.
Qed.

Lemma encodeURIComponent_plain_measure n :
  forall s l, (length s <= n)%nat -> Forall (fun c => 0 <= c) s ->
  encodeURIComponent s = Ok l -> plain l.
Proof.
  induction n as [|n IH]; intros s l Hn Hs Hl.
  { destruct s; [injection Hl as <-; constructor | cbn in Hn; lia]. }
  destruct s as [|c rest]; [injection Hl as <-; constructor|]. cbn in Hn.
  inversion Hs as [|? ? Hc Hr]; subst. cbn [encodeURIComponent] in Hl.
  destruct (uri_unreserved c) eqn:Hu.
  { destruct (encodeURIComponent rest) as [r|] eqn:Er; [|discriminate].
    cbn [bind] in Hl. injection Hl as <-. constructor; [apply unreserved_plain, Hu|].
    apply (IH rest); assumption || lia. }
  destruct (is_low_surrogate c); [discriminate|].
  destruct (is_high_surrogate c) eqn:Hh.
  { destruct rest as [|d rest']; [discriminate|].
    inversion Hr as [|? ? Hd Hr']; subst.
    destruct (is_low_surrogate d) eqn:Hl'; [|discriminate].
    destruct (encodeURIComponent rest') as [r|] eqn:Er; [|discriminate].
    cbn [bind] in Hl. injection Hl as <-. apply Forall_app. split.
    - apply flat_map_percent_plain, utf8_of_code_point_nonneg.
      unfold pair_code_point, is_high_surrogate, is_low_surrogate in *.
      apply andb_true_iff in Hh as [Hh _]. apply andb_true_iff in Hl' as [Hl' _].
      apply Z.leb_le in Hh, Hl'. lia.
    - apply (IH rest'); [cbn in Hn; lia | exact Hr' | exact Er]. }
  destruct (encodeURIComponent rest) as [r|] eqn:Er; [|discriminate].
  cbn [bind] in Hl. injection Hl as <-. apply Forall_app. split.
  - apply flat_map_percent_plain, utf8_of_code_point_nonneg, Hc.
  - apply (IH rest); assumption || lia.
Qed.

Lemma form_byte_plain b : 0 <= b -> plain (form_byte b).
Proof.
  intros Hb. unfold form_byte.
  destruct (b =? 32); [constructor; [reflexivity | constructor]|].
  destruct (is_alnum b || existsb (Z.eqb b) [42; 45; 46; 95]) eqn:E; [|apply percent_byte_plain, Hb].
  constructor; [|constructor]. unfold is_alnum, is_digit in E. cbn [existsb] in E.
  apply delim_false; intros ->; discriminate E.
Qed.

Lemma form_urlencode_plain s : Forall (fun c => 0 <= c) s -> plain (form_urlencode s).
Proof.
  intros H. unfold form_urlencode. pose proof (utf8_encode_nonneg s H) as Hb.
  induction (utf8_encode s) as [|b l IH]; [constructor|]. inversion Hb; subst.
  cbn [flat_map]. apply Forall_app. split; [apply form_byte_plain; assumption | apply IH; assumption].
Qed.

Lemma base32Encode_plain data : plain (Base32.base32Encode data).
Proof.
  eapply Forall_impl; [|apply UriFacts.base32Encode_chars].
  intros c Hc. unfold UriFacts.b32_char in Hc. apply delim_false; lia.
Qed.

Lemma plain_count l x : plain l -> delim x = true -> count_occ Z.eq_dec l x = 0%nat.
Proof.
  intros H Hx. apply count_occ_not_In. intros Hin.
  rewrite (proj1 (Forall_forall _ _) H x Hin) in Hx. discriminate.
Qed.

Lemma node_browser_uri issuer accountName secret :
  Node.generateOtpauthUri issuer accountName secret = Browser.generateOtpauthUri issuer accountName secret.
Proof. reflexivity. Qed.

End UriShape.

Module Utf8Facts.
Import JS Base32Facts.

Lemma shiftr_range cp k B : 0 <= k -> 0 <= cp < B * 2 ^ k -> 0 <= Z.shiftr cp k < B.
Proof.
  intros Hk Hcp. rewrite Z.shiftr_div_pow2 by lia.
  assert (0 < 2 ^ k) by (apply Z.pow_pos_nonneg; lia).
  split; [apply Z.div_pos; lia | apply Z.div_lt_upper_bound; lia].
Qed.

Lemma utf8_of_code_point_bytes cp :
  0 <= cp <= 0x10FFFF ->
  Forall is_byte (utf8_of_code_point cp) /\
  (1 <= length (utf8_of_code_point cp) <= 4)%nat /\
  (cp <= 0xFFFF -> (length (utf8_of_code_point cp) <= 3)%nat) /\
  (0x10000 <= cp -> length (utf8_of_code_point cp) = 4%nat).
Proof.
  intros H. unfold utf8_of_code_point, is_byte.
  pose proof (UriShape.land63_range cp). pose proof (UriShape.land63_range (Z.shiftr cp 6)).
  pose proof (UriShape.land63_range (Z.shiftr cp 12)).
  destruct (Z.ltb_spec cp 0x80); [split; [repeat (apply Forall_cons; [cbv beta; lia|]); apply Forall_nil | split; [cbn; lia | split; intros; cbn; lia]]|].
  destruct (Z.ltb_spec cp 0x800).
  { pose proof (shiftr_range cp 6 32 ltac:(lia) ltac:(cbn; lia)).
    split; [repeat (apply Forall_cons; [cbv beta; lia|]); apply Forall_nil | split; [cbn; lia | split; intros; cbn; lia]]. }
  destruct (Z.ltb_spec cp 0x10000).
  { pose proof (shiftr_range cp 12 16 ltac:(lia) ltac:(cbn; lia)).
    split; [repeat (apply Forall_cons; [cbv beta; lia|]); apply Forall_nil | split; [cbn; lia | split; intros; cbn; lia]]. }
  pose proof (shiftr_range cp 18 5 ltac:(lia) ltac:(cbn; lia)).
  split; [repeat (apply Forall_cons; [cbv beta; lia|]); apply Forall_nil | split; [cbn; lia | split; intros; cbn; lia]].
Qed.

Lemma utf8_encode_bytes_measure n :
  forall s, (length s <= n)%nat -> Forall (fun c => 0 <= c <= 0xFFFF) s ->
  Forall is_byte (utf8_encode s) /\
  (length s <= length (utf8_encode s) <= 3 * length s)%nat.
Proof.
  induction n as [|n IH]; intros s Hn Hs.
  { destruct s; [split; [constructor | cbn; lia] | cbn in Hn; lia]. }
  destruct s as [|c rest]; [split; [constructor | cbn; lia]|]. cbn in Hn.
  inversion Hs as [|? ? Hc Hr]; subst. unfold utf8_encode. cbn [code_points].
  destruct (is_high_surrogate c) eqn:Hh.
  - destruct rest as [|d rest'].
    + destruct (utf8_of_code_point_bytes 0xFFFD ltac:(lia)) as (B & L & L3 & _).
      cbn [flat_map]. rewrite app_nil_r. split; [exact B|].
      replace (length (utf8_of_code_point 0xFFFD)) with 3%nat by reflexivity. cbn; lia.
    + inversion Hr as [|? ? Hd Hr']; subst.
      destruct (is_low_surrogate d) eqn:Hl.
      * assert (Hp : 0x10000 <= pair_code_point c d <= 0x10FFFF).
        { unfold pair_code_point, is_high_surrogate, is_low_surrogate in *.
          apply andb_true_iff in Hh as [Hh1 Hh2]. apply andb_true_iff in Hl as [Hl1 Hl2].
          apply Z.leb_le in Hh1, Hh2, Hl1, Hl2. lia. }
        destruct (utf8_of_code_point_bytes (pair_code_point c d) ltac:(lia)) as (B & _ & _ & L4).
        destruct (IH rest' ltac:(cbn in Hn; lia) Hr') as [B' L'].
        unfold utf8_encode in B', L'.
        cbn [flat_map]. split; [apply Forall_app; split; assumption|].
        rewrite length_app, L4 by lia. cbn [length] in *. lia.
      * destruct (utf8_of_code_point_bytes 0xFFFD ltac:(lia)) as (B & _ & _ & _).
        destruct (IH (d :: rest') ltac:(lia) Hr) as [B' L'].
        unfold utf8_encode in B', L'.
        cbn [flat_map]. split; [apply Forall_app; split; assumption|].
        rewrite length_app.
        replace (length (utf8_of_code_point 0xFFFD)) with 3%nat by reflexivity.
        cbn [length] in *. lia.
  - destruct (IH rest ltac:(lia) Hr) as [B' L']. unfold utf8_encode in B', L'.
    destruct (is_low_surrogate c).
    + destruct (utf8_of_code_point_bytes 0xFFFD ltac:(lia)) as (B & _ & _ & _).
      cbn [flat_map]. split; [apply Forall_app; split; assumption|].
      rewrite length_app.
      replace (length (utf8_of_code_point 0xFFFD)) with 3%nat by reflexivity.
      cbn [length] in *. lia.
    + destruct (utf8_of_code_point_bytes c ltac:(lia)) as (B & L & L3 & _).
      cbn [flat_map]. split; [apply Forall_app; split; assumption|].
      rewrite length_app. specialize (L3 ltac:(lia)). cbn [length] in *. lia.
Qed.

Lemma whitespace_string_trim (w : jsstr) :
  forallb is_js_whitespace w = true -> trim (BrowserUI.toUSVString w) = [].
Proof.
  intros H. assert (E : BrowserUI.toUSVString w = w).
  { induction w as [|c w IH]; [reflexivity|]. cbn [forallb] in H.
    apply andb_true_iff in H as [Hc H].
    destruct (UiFacts.whitespace_not_surrogate c Hc) as [Hh Hl].
    cbn [BrowserUI.toUSVString]. rewrite Hh, Hl, (IH H). reflexivity. }
  rewrite E. unfold trim.
  assert (T : trim_start w = []).
  { clear E. induction w as [|c w IH]; [reflexivity|]. cbn [forallb] in H.
    apply andb_true_iff in H as [Hc H]. cbn [trim_start]. rewrite Hc. apply IH, H. }
  rewrite T. reflexivity.
Qed.

End Utf8Facts.

(** ** The claims *)
Import JS.

(** C1: on every valid input (digit/hyphen codes, activation residue below
    2^56, registration residue below 2^32), [generateOtpSecret] returns
    PBKDF2-HMAC-SHA-256 with 8 iterations and 16 output bytes of the password
    (low 7 bytes of the 8-byte big-endian activation value, bytes 2-3 of the
    4-byte big-endian registration value, UTF-8 policy when non-empty) and the
    salt (UTF-8 of the hyphen-stripped serial). *)
Theorem generateOtpSecret_valid serial act reg policy a r :
  Spec.valid_input serial act reg a r ->
  Node.generateOtpSecret serial act reg policy
  = Ok (Crypto.pbkdf2_hmac_sha256 (Spec.password a r policy) (Spec.salt serial) 8 16).
Proof.
  intros H. unfold Node.generateOtpSecret.
  rewrite (Facts.node_kdf_inputs_valid _ _ _ _ _ _ H). reflexivity.
Qed.

Lemma example_valid :
  Spec.valid_input (js "00001-00000") (js "0000000000001-9") (js "00001-00000-9") 1 100000.
Proof. unfold Spec.valid_input. repeat split; (reflexivity || lia). Qed.

Lemma generateOtpSecret_valid_witness :
  Spec.valid_input (js "00001-00000") (js "0000000000001-9") (js "00001-00000-9") 1 100000 /\
  Node.generateOtpSecret (js "00001-00000") (js "0000000000001-9") (js "00001-00000-9") []
  = Ok (Crypto.pbkdf2_hmac_sha256 (Spec.password 1 100000 []) (Spec.salt (js "00001-00000")) 8 16).
Proof. split; [exact example_valid | apply generateOtpSecret_valid; exact example_valid]. Defined.

(** C8: on every valid input the password handed to the KDF has 9 bytes,
    plus the UTF-8 length of the policy when the policy is non-empty. *)
Theorem password_length serial act reg policy a r :
  Spec.valid_input serial act reg a r ->
  exists password salt,
    Node.otpSecretKdfInputs serial act reg policy = Ok (password, salt) /\
    length password = (9 + (if Nat.eqb (length policy) 0 then 0 else length (utf8_encode policy)))%nat.
Proof.
  intros H. exists (Spec.password a r policy), (Spec.salt serial).
  split; [exact (Facts.node_kdf_inputs_valid _ _ _ _ _ _ H)|].
  unfold Spec.password. destruct policy as [|c p]; [reflexivity|].
  rewrite !length_app. reflexivity.
Qed.

Lemma password_length_witness :
  Spec.valid_input (js "00001-00000") (js "0000000000001-9") (js "00001-00000-9") 1 100000 /\
  exists password salt,
    Node.otpSecretKdfInputs (js "00001-00000") (js "0000000000001-9") (js "00001-00000-9") (js "{}")
    = Ok (password, salt) /\
    length password = (9 + (if Nat.eqb (length (js "{}")) 0 then 0 else length (utf8_encode (js "{}"))))%nat.
Proof. split; [exact example_valid | apply password_length with (a := 1) (r := 100000); exact example_valid]. Defined.

(** C9: on every valid input the Node and the browser derivations return the
    same 16-byte secret. *)
Theorem node_browser_agree serial act reg policy a r :
  Spec.valid_input serial act reg a r ->
  Node.generateOtpSecret serial act reg policy = Browser.generateOtpSecret serial act reg policy /\
  exists secret, Node.generateOtpSecret serial act reg policy = Ok secret /\ length secret = 16%nat.
Proof.
  intros H. unfold Node.generateOtpSecret, Browser.generateOtpSecret.
  rewrite (Facts.node_kdf_inputs_valid _ _ _ _ _ _ H), (Facts.browser_kdf_inputs_valid _ _ _ _ _ _ H).
  split; [reflexivity|]. eexists; split; [reflexivity|]. apply Facts.pbkdf2_16_length.
Qed.

Lemma node_browser_agree_witness :
  Spec.valid_input (js "00001-00000") (js "0000000000001-9") (js "00001-00000-9") 1 100000 /\
  (Node.generateOtpSecret (js "00001-00000") (js "0000000000001-9") (js "00001-00000-9") []
   = Browser.generateOtpSecret (js "00001-00000") (js "0000000000001-9") (js "00001-00000-9") [] /\
   exists secret, Node.generateOtpSecret (js "00001-00000") (js "0000000000001-9") (js "00001-00000-9") []
                  = Ok secret /\ length secret = 16%nat).
Proof. split; [exact example_valid | apply node_browser_agree with (a := 1) (r := 100000); exact example_valid]. Defined.

(** C2, as stated (an activation residue of 2^56 or more always raises
    RangeError), fails: the residue 2^56 = 72057594037927936 derives
    without error the same secret as the activation value 0. *)
Lemma activation_truncated_counterexample :
  Node.generateOtpSecret (js "1") (js "720575940379279369") (js "00001-00000-9") []
  = Node.generateOtpSecret (js "1") (js "00") (js "00001-00000-9") [] /\
  Node.generateOtpSecret (js "1") (js "720575940379279369") (js "00001-00000-9") [] <> Throw RangeError.
Proof. split; vm_compute; [reflexivity | discriminate]. Qed.

(** C2 (amended): an activation residue of value [v] with [2^56 <= v < 2^64]
    is truncated without error to its low 7 bytes, deriving the secret of
    the activation value [v mod 2^56]; only [v >= 2^64] raises RangeError. *)
Theorem activation_range serial act act' reg policy v :
  Spec.decimal_value (Spec.residue act) = Some v -> 2 ^ 56 <= v ->
  (v < 2 ^ 64 -> Spec.decimal_value (Spec.residue act') = Some (v mod 2 ^ 56) ->
   Node.generateOtpSecret serial act reg policy = Node.generateOtpSecret serial act' reg policy) /\
  (2 ^ 64 <= v -> Node.generateOtpSecret serial act reg policy = Throw RangeError).
Proof.
  intros Hv H56. split.
  - intros H64 Hv'. unfold Node.generateOtpSecret, Node.otpSecretKdfInputs.
    rewrite !Facts.residue_slice, (Facts.BigInt_decimal _ _ Hv), (Facts.BigInt_decimal _ _ Hv').
    cbn [bind].
    rewrite (Facts.writeBigUInt64BE_alloc v), (Facts.writeBigUInt64BE_alloc (v mod 2 ^ 56)).
    + cbn [bind]. rewrite !Facts.subarray_skip1, Facts.skip1_be_encode_mod. reflexivity.
    + pose proof (Z.mod_pos_bound v (2 ^ 56)). lia.
    + lia.
  - intros H64. unfold Node.generateOtpSecret, Node.otpSecretKdfInputs.
    rewrite !Facts.residue_slice, (Facts.BigInt_decimal _ _ Hv). cbn [bind].
    rewrite Facts.writeBigUInt64BE_range by lia. reflexivity.
Qed.

Lemma activation_range_witness :
  Spec.decimal_value (Spec.residue (js "720575940379279369")) = Some (2 ^ 56) /\ 2 ^ 56 <= 2 ^ 56 /\
  ((2 ^ 56 < 2 ^ 64 -> Spec.decimal_value (Spec.residue (js "00")) = Some (2 ^ 56 mod 2 ^ 56) ->
    Node.generateOtpSecret (js "1") (js "720575940379279369") (js "00001-00000-9") []
    = Node.generateOtpSecret (js "1") (js "00") (js "00001-00000-9") []) /\
   (2 ^ 64 <= 2 ^ 56 ->
    Node.generateOtpSecret (js "1") (js "720575940379279369") (js "00001-00000-9") [] = Throw RangeError)).
Proof.
  assert (H : Spec.decimal_value (Spec.residue (js "720575940379279369")) = Some (2 ^ 56))
    by reflexivity.
  split; [exact H|]. split; [lia|].
  apply activation_range; [exact H | lia].
Defined.

(** C3: with a digit/hyphen activation code, a registration residue of
    decimal value 2^32 or more makes [generateOtpSecret] raise RangeError. *)
Theorem registration_out_of_range serial act reg policy r :
  Spec.digit_hyphen act = true ->
  Spec.decimal_value (Spec.residue reg) = Some r -> 2 ^ 32 <= r ->
  Node.generateOtpSecret serial act reg policy = Throw RangeError.
Proof.
  intros Hact Hr H32. unfold Node.generateOtpSecret, Node.otpSecretKdfInputs.
  rewrite !Facts.residue_slice.
  destruct (Facts.BigInt_digits _ (Facts.residue_digits _ Hact)) as (v & Hv0 & Hv).
  rewrite Hv. cbn [bind].
  destruct (Z_le_gt_dec v 0xffffffffffffffff) as [Hle|Hgt].
  - rewrite Facts.writeBigUInt64BE_alloc by lia. cbn [bind].
    rewrite (Facts.parseInt_decimal_number _ _ Hr), Facts.writeUInt32BE_to_number_range by lia. reflexivity.
  - rewrite Facts.writeBigUInt64BE_range by lia. reflexivity.
Qed.

Lemma registration_out_of_range_witness :
  Spec.digit_hyphen (js "0000000000001-9") = true /\
  Spec.decimal_value (Spec.residue (js "42949-67296-9")) = Some 4294967296 /\ 2 ^ 32 <= 4294967296 /\
  Node.generateOtpSecret (js "1") (js "0000000000001-9") (js "42949-67296-9") [] = Throw RangeError.
Proof.
  assert (H1 : Spec.digit_hyphen (js "0000000000001-9") = true) by reflexivity.
  assert (H2 : Spec.decimal_value (Spec.residue (js "42949-67296-9")) = Some 4294967296) by reflexivity.
  split; [exact H1|]. split; [exact H2|]. split; [lia|].
  apply (registration_out_of_range _ _ _ _ 4294967296 H1 H2). lia.
Defined.

(** C4, as stated (a non-digit residue always raises a parse error), fails:
    the registration residue "12a" derives the secret of "12". *)
Lemma registration_prefix_counterexample :
  (exists k, Node.generateOtpSecret (js "1") (js "0000000000001-9") (js "12a9") [] = Ok k) /\
  Node.generateOtpSecret (js "1") (js "0000000000001-9") (js "12a9") []
  = Node.generateOtpSecret (js "1") (js "0000000000001-9") (js "129") [].
Proof. split; [eexists; vm_compute; reflexivity | vm_compute; reflexivity]. Qed.

(** C4 (amended): there is no charset check of the residues. An activation
    residue that starts with a digit 1-9 and holds, after it, a character
    that is neither a digit nor white space makes [BigInt] raise a
    SyntaxError. The registration residue goes to [parseInt], which itself
    never throws: a non-empty run of digits followed by a non-digit (other
    than the hex prefix ["0x"] or ["0X"]) derives the secret of the digit
    run alone, and a residue whose first character is not a digit, white
    space, ['+'] or ['-'] is read as NaN and derives the secret of the
    registration value 0. *)
Theorem non_digit_residues serial policy :
  (forall act reg c rest x,
     Spec.residue act = c :: rest -> 49 <= c <= 57 -> In x rest ->
     is_digit x = false -> is_js_whitespace x = false ->
     Node.generateOtpSecret serial act reg policy = Throw SyntaxError) /\
  (forall act reg1 reg2 ds x rest,
     Spec.residue reg1 = ds ++ x :: rest -> Spec.residue reg2 = ds ->
     forallb is_digit ds = true -> ds <> [] -> is_digit x = false ->
     ~ (ds = [48] /\ (x = 120 \/ x = 88)) ->
     Node.generateOtpSecret serial act reg1 policy = Node.generateOtpSecret serial act reg2 policy) /\
  (forall act reg1 reg0 x rest,
     Spec.residue reg1 = x :: rest -> Spec.residue reg0 = [48] ->
     is_digit x = false -> is_js_whitespace x = false -> x <> 43 -> x <> 45 ->
     Node.generateOtpSecret serial act reg1 policy = Node.generateOtpSecret serial act reg0 policy).
Proof.
  split; [|split].
  - intros act reg c rest x Hres Hc Hx Hd Hw.
    unfold Node.generateOtpSecret, Node.otpSecretKdfInputs. rewrite !Facts.residue_slice, Hres.
    rewrite (Facts.BigInt_non_digit c rest x Hc Hx Hd Hw). reflexivity.
  - intros act reg1 reg2 ds x rest H1 H2 Hds Hne Hx Hhex.
    apply Facts.registration_bytes_only. rewrite H1, H2, Facts.parseInt_prefix by assumption.
    reflexivity.
  - intros act reg1 reg0 x rest H1 H0 Hd Hw H43 H45.
    apply Facts.registration_bytes_only. rewrite H1, H0, Facts.parseInt_no_digit by assumption.
    reflexivity.
Qed.

Lemma non_digit_residues_witness :
  Node.generateOtpSecret (js "1") (js "12a49") (js "129") [] = Throw SyntaxError /\
  Node.generateOtpSecret (js "1") (js "0000000000001-9") (js "12a9") []
  = Node.generateOtpSecret (js "1") (js "0000000000001-9") (js "129") [] /\
  Node.generateOtpSecret (js "1") (js "0000000000001-9") (js "abc9") []
  = Node.generateOtpSecret (js "1") (js "0000000000001-9") (js "00") [].
Proof.
  destruct (non_digit_residues (js "1") []) as (H1 & H2 & H3).
  split; [|split].
  - apply (H1 _ _ 49 (js "2a4") 97); [reflexivity | lia | simpl; tauto | reflexivity | reflexivity].
  - apply (H2 _ _ _ (js "12") 97 []);
      [reflexivity | reflexivity | reflexivity | discriminate | reflexivity | intros [H _]; discriminate].
  - apply (H3 _ _ _ 97 (js "bc")); [reflexivity | reflexivity | reflexivity | reflexivity | lia | lia].
Defined.

(** C7, as stated, fails: the activation codes "00000000000019" and
    "0000000000001-" differ only in their final character, but the final
    hyphen is removed before the check digit is dropped, so the residues are
    "0000000000001" and "000000000000" and the secrets differ. *)
Lemma check_digit_hyphen_counterexample :
  Node.generateOtpSecret (js "1") (js "00000000000019") (js "00001-00000-9") []
  <> Node.generateOtpSecret (js "1") (js "0000000000001-") (js "00001-00000-9") [].
Proof. vm_compute. congruence. Qed.

(** C7 (amended): activation codes identical except in a final character
    that is not a hyphen derive the same secret, and likewise registration
    codes. *)
Theorem check_digit_irrelevant serial policy act reg y c1 c2 z d1 d2 :
  c1 <> 45 -> c2 <> 45 -> d1 <> 45 -> d2 <> 45 ->
  Node.generateOtpSecret serial (y ++ [c1]) reg policy
  = Node.generateOtpSecret serial (y ++ [c2]) reg policy /\
  Node.generateOtpSecret serial act (z ++ [d1]) policy
  = Node.generateOtpSecret serial act (z ++ [d2]) policy.
Proof.
  intros H1 H2 H3 H4. split.
  - apply Facts.activation_value_only. rewrite !Facts.residue_last by assumption. reflexivity.
  - apply Facts.registration_bytes_only. rewrite !Facts.residue_last by assumption. reflexivity.
Qed.

Lemma check_digit_irrelevant_witness :
  Node.generateOtpSecret (js "00001-00000") (js "0000000000001-9") (js "00001-00000-9") []
  = Node.generateOtpSecret (js "00001-00000") (js "0000000000001-3") (js "00001-00000-9") [] /\
  Node.generateOtpSecret (js "00001-00000") (js "0000000000001-9") (js "00001-00000-9") []
  = Node.generateOtpSecret (js "00001-00000") (js "0000000000001-9") (js "00001-00000-5") [].
Proof.
  replace (js "0000000000001-9") with (js "0000000000001-" ++ [57]) by reflexivity.
  replace (js "0000000000001-3") with (js "0000000000001-" ++ [51]) by reflexivity.
  replace (js "00001-00000-9") with (js "00001-00000-" ++ [57]) by reflexivity.
  replace (js "00001-00000-5") with (js "00001-00000-" ++ [53]) by reflexivity.
  apply (check_digit_irrelevant (js "00001-00000") [] (js "0000000000001-" ++ [57])
           (js "00001-00000-" ++ [57]) (js "0000000000001-") 57 51 (js "00001-00000-") 57 53); lia.
Defined.

(** C10: when the hyphen-stripped activation code is a single character, its
    residue is empty, [BigInt("")] is [0n], and the derivation goes on as for
    the activation value 0: no error, an all-zero 7-byte activation field. *)
Theorem single_char_activation serial act reg policy :
  length (Spec.normalize act) = 1%nat ->
  Node.generateOtpSecret serial act reg policy = Node.generateOtpSecret serial (js "00") reg policy /\
  (forall r, Spec.decimal_value (Spec.residue reg) = Some r -> r < 2 ^ 32 ->
   Node.generateOtpSecret serial act reg policy
   = Ok (Crypto.pbkdf2_hmac_sha256 (Spec.password 0 r policy) (Spec.salt serial) 8 16) /\
   firstn 7 (Spec.password 0 r policy) = repeat 0 7).
Proof.
  intros Hlen.
  assert (Hres : Spec.residue act = []).
  { unfold Spec.residue. destruct (Spec.normalize act) as [|c [|d l]]; try discriminate. reflexivity. }
  assert (Heq : Node.generateOtpSecret serial act reg policy
                = Node.generateOtpSecret serial (js "00") reg policy).
  { apply Facts.activation_value_only. rewrite Hres. reflexivity. }
  split; [exact Heq|]. intros r Hr H32. rewrite Heq. split.
  - unfold Node.generateOtpSecret.
    rewrite (Facts.node_kdf_inputs_values serial (js "00") reg policy 0 r); [reflexivity | reflexivity | lia | exact Hr | exact H32].
  - reflexivity.
Qed.

Lemma single_char_activation_witness :
  length (Spec.normalize (js "7")) = 1%nat /\
  (Node.generateOtpSecret (js "00001-00000") (js "7") (js "00001-00000-9") []
   = Node.generateOtpSecret (js "00001-00000") (js "00") (js "00001-00000-9") [] /\
   (forall r, Spec.decimal_value (Spec.residue (js "00001-00000-9")) = Some r -> r < 2 ^ 32 ->
    Node.generateOtpSecret (js "00001-00000") (js "7") (js "00001-00000-9") []
    = Ok (Crypto.pbkdf2_hmac_sha256 (Spec.password 0 r []) (Spec.salt (js "00001-00000")) 8 16) /\
    firstn 7 (Spec.password 0 r []) = repeat 0 7)).
Proof. split; [reflexivity | apply single_char_activation; reflexivity]. Defined.

(** Claim C5, counterexample: an issuer holding a lone surrogate makes
    [encodeURIComponent] throw a URIError, so no URI is returned. *)
Lemma uri_lone_surrogate_counterexample :
  Node.generateOtpauthUri [0xD800] (js "a") (repeat 0 16) = Throw URIError.
Proof. vm_compute. reflexivity. Qed.

(** Claim C5 (amended): for an issuer and an account name without unpaired
    surrogates, the URI is ["otpauth://totp/"], the percent-encoded issuer,
    ["%3A"], the percent-encoded account name, then the query
    [secret, issuer, algorithm, digits, period] in that order, form-encoded,
    with algorithm ["SHA256"], digits ["6"] and period ["30"]; when the
    issuer or the account name has an unpaired surrogate, the call throws a
    URIError and returns no URI. *)
Theorem otpauth_uri_layout issuer accountName secretBuffer :
  (URI.isWellFormed issuer = true -> URI.isWellFormed accountName = true ->
   exists li la,
     URI.encodeURIComponent issuer = Ok li /\ URI.encodeURIComponent accountName = Ok la /\
     Node.generateOtpauthUri issuer accountName secretBuffer
     = Ok (js "otpauth://totp/" ++ li ++ js "%3A" ++ la ++ js "?secret="
           ++ Base32.base32Encode secretBuffer ++ js "&issuer=" ++ URI.form_urlencode issuer
           ++ js "&algorithm=SHA256&digits=6&period=30")) /\
  (URI.isWellFormed issuer = false \/ URI.isWellFormed accountName = false ->
   Node.generateOtpauthUri issuer accountName secretBuffer = Throw URIError).
Proof.
  split.
  - intros Hi Ha.
    destruct (UriFacts.encodeURIComponent_well_formed issuer Hi) as [li Hli].
    destruct (UriFacts.encodeURIComponent_well_formed accountName Ha) as [la Hla].
    exists li, la. split; [exact Hli|]. split; [exact Hla|].
    unfold Node.generateOtpauthUri.
    rewrite (UriFacts.encodeURIComponent_app issuer _ li Hli).
    rewrite (UriFacts.encodeURIComponent_colon accountName la Hla). cbn [bind].
    unfold URI.URLSearchParams_toString. cbn [map fst snd URI.join_amp].
    change (Base32.base32Encode_package secretBuffer false) with (Base32.base32Encode secretBuffer).
    rewrite (UriFacts.form_urlencode_b32 _ (UriFacts.base32Encode_chars secretBuffer)).
    rewrite <- !app_assoc. reflexivity.
  - intros H. unfold Node.generateOtpauthUri.
    rewrite (UiFacts.label_ill_formed issuer accountName H). reflexivity.
Qed.

Lemma otpauth_uri_layout_witness :
  (URI.isWellFormed (js "Example Co") = true /\ URI.isWellFormed (js "user@example.com") = true /\
   exists li la,
     URI.encodeURIComponent (js "Example Co") = Ok li
     /\ URI.encodeURIComponent (js "user@example.com") = Ok la /\
     Node.generateOtpauthUri (js "Example Co") (js "user@example.com") (repeat 0 16)
     = Ok (js "otpauth://totp/" ++ li ++ js "%3A" ++ la ++ js "?secret="
           ++ Base32.base32Encode (repeat 0 16) ++ js "&issuer=" ++ URI.form_urlencode (js "Example Co")
           ++ js "&algorithm=SHA256&digits=6&period=30")) /\
  (URI.isWellFormed (js "user" ++ [0xDC00]) = false /\
   Node.generateOtpauthUri (js "Example Co") (js "user" ++ [0xDC00]) (repeat 0 16) = Throw URIError).
Proof.
  split.
  - split; [reflexivity|]. split; [reflexivity|].
    apply (proj1 (otpauth_uri_layout (js "Example Co") (js "user@example.com") (repeat 0 16)));
      reflexivity.
  - split; [reflexivity|].
    apply (proj2 (otpauth_uri_layout (js "Example Co") (js "user" ++ [0xDC00]) (repeat 0 16))).
    right. reflexivity.
Defined.

(** Claim C6: every character of the Base32 secret is in [A-Z2-7], none is
    ['='], the call [encode(secretBuffer, { padding: false })] is that same
    string, and every URI returned carries it verbatim as the [secret] value. *)
Theorem base32_alphabet_only data issuer accountName :
  Forall UriFacts.b32_char (Base32.base32Encode data) /\
  ~ In 61 (Base32.base32Encode data) /\
  Base32.base32Encode_package data false = Base32.base32Encode data /\
  match Node.generateOtpauthUri issuer accountName data with
  | Ok uri => exists pre post, uri = pre ++ js "?secret=" ++ Base32.base32Encode data ++ js "&" ++ post
  | Throw _ => True
  end.
Proof.
  pose proof (UriFacts.base32Encode_chars data) as Hc.
  split; [exact Hc|]. split.
  { intros Hin. apply (proj1 (Forall_forall _ _) Hc) in Hin. unfold UriFacts.b32_char in Hin. lia. }
  split; [reflexivity|].
  unfold Node.generateOtpauthUri.
  destruct (URI.encodeURIComponent (issuer ++ js ":" ++ accountName)) as [label|e]; [|exact I].
  cbn [bind]. unfold URI.URLSearchParams_toString. cbn [map fst snd URI.join_amp].
  change (Base32.base32Encode_package data false) with (Base32.base32Encode data).
  rewrite (UriFacts.form_urlencode_b32 _ Hc).
  exists (js "otpauth://totp/" ++ label),
    (js "issuer=" ++ URI.form_urlencode issuer ++ js "&algorithm=SHA256&digits=6&period=30").
  rewrite <- !app_assoc. reflexivity.
Qed.

(** ** Further properties of the code *)
Import Base32Facts PackFacts UiFacts UriShape Utf8Facts.

(** Literal lists whose elements satisfy a decidable arithmetic predicate. *)
Ltac forall_lits :=
  cbn; repeat (apply Forall_cons; [cbv beta; try unfold is_byte; lia|]); apply Forall_nil.

(** X1: [base32Encode] is decoded by RFC 4648 Base32: for every byte
    array, decoding the encoded string gives back the bytes. *)
Theorem base32_roundtrip data :
  Forall is_byte data -> Ref.base32Decode (Base32.base32Encode data) = data.
Proof.
  intros Hf. destruct (base32Encode_closed data Hf) as (m & pad & Hp & Hm & He).
  pose proof (be_decode_bound data Hf) as HA.
  unfold Ref.base32Decode, Ref.b32_value. rewrite He, digits32_length, digits32_value.
  assert (Hdiv : Nat.div (5 * m) 8 = length data).
  { symmetry. apply Nat.div_unique with (r := Z.to_nat pad); lia. }
  rewrite Hdiv.
  replace (Z.of_nat (5 * m - 8 * length data)) with pad by lia.
  rewrite Z.mul_0_l, Z.add_0_l.
  rewrite Z.mod_small.
  - rewrite Z.shiftr_div_pow2, Z.div_mul by (try apply Z.pow_nonzero; lia).
    apply be_encode_decode. exact Hf.
  - split; [apply Z.mul_nonneg_nonneg; [lia | apply Z.pow_nonneg; lia]|].
    rewrite <- Hm, Z.pow_add_r by lia.
    apply Z.mul_lt_mono_pos_r; [apply Z.pow_pos_nonneg; lia | lia].
Qed.

Lemma base32_roundtrip_witness :
  Forall is_byte [72; 101; 108; 108; 111; 0; 255] /\
  Ref.base32Decode (Base32.base32Encode [72; 101; 108; 108; 111; 0; 255])
  = [72; 101; 108; 108; 111; 0; 255].
Proof.
  assert (H : Forall is_byte [72; 101; 108; 108; 111; 0; 255]) by forall_lits.
  split; [exact H | exact (base32_roundtrip _ H)].
Defined.

(** X2: [base32Encode] of [n] bytes has [ceil(8 n / 5)] characters. *)
Theorem base32_length data :
  Forall is_byte data -> length (Base32.base32Encode data) = Nat.div (8 * length data + 4) 5.
Proof.
  intros Hf. destruct (base32Encode_closed data Hf) as (m & pad & Hp & Hm & He).
  rewrite He, digits32_length.
  apply Nat.div_unique with (r := (4 - Z.to_nat pad)%nat); lia.
Qed.

Lemma base32_length_witness :
  Forall is_byte [1; 2; 3; 4; 5; 6] /\
  length (Base32.base32Encode [1; 2; 3; 4; 5; 6]) = Nat.div (8 * length [1; 2; 3; 4; 5; 6] + 4) 5.
Proof.
  assert (H : Forall is_byte [1; 2; 3; 4; 5; 6]) by forall_lits.
  split; [exact H | exact (base32_length _ H)].
Defined.

(** X3: when the first array has a multiple of 5 bytes, [base32Encode]
    of the concatenation is the concatenation of the encodings. *)
Theorem base32_concat a b :
  Forall is_byte a -> Forall is_byte b -> Nat.modulo (length a) 5 = 0%nat ->
  Base32.base32Encode (a ++ b) = Base32.base32Encode a ++ Base32.base32Encode b.
Proof.
  intros Ha Hb H5.
  destruct (base32Encode_closed a Ha) as (ma & pa & Hpa & Hma & Ea).
  destruct (base32Encode_closed b Hb) as (mb & pb & Hpb & Hmb & Eb).
  destruct (base32Encode_closed (a ++ b) (proj2 (Forall_app _ _ _) (conj Ha Hb))) as (m & p & Hp & Hm & E).
  rewrite length_app in Hm.
  assert (Ht : length a = (5 * (length a / 5))%nat) by (pose proof (Nat.div_mod (length a) 5); lia).
  assert (pa = 0) by lia. assert (p = pb) by lia. assert (m = (ma + mb)%nat) by lia. subst pa p m.
  rewrite E, Ea, Eb, digits32_app, be_decode_app, be_decode_acc.
  pose proof (be_decode_bound b Hb) as HB.
  set (A := Crypto.be_decode a 0). set (B := Crypto.be_decode b 0).
  assert (Hx : (A * 2 ^ (8 * Z.of_nat (length b)) + B) * 2 ^ pb
               = B * 2 ^ pb + A * 2 ^ (5 * Z.of_nat mb)).
  { rewrite <- Hmb, Z.pow_add_r by lia. ring. }
  rewrite Hx. f_equal.
  - rewrite Z.div_add by (apply Z.pow_nonzero; lia).
    rewrite Z.div_small, Z.mul_1_r by (split; [apply Z.mul_nonneg_nonneg; [lia | apply Z.pow_nonneg; lia]|];
      rewrite <- Hmb, Z.pow_add_r by lia; apply Z.mul_lt_mono_pos_r; [apply Z.pow_pos_nonneg; lia | lia]).
    reflexivity.
  - apply digits32_ext. rewrite Z.mod_add by (apply Z.pow_nonzero; lia). reflexivity.
Qed.

Lemma base32_concat_witness :
  Forall is_byte [1; 2; 3; 4; 5] /\ Forall is_byte [6; 7] /\ Nat.modulo (length [1; 2; 3; 4; 5]) 5 = 0%nat /\
  Base32.base32Encode ([1; 2; 3; 4; 5] ++ [6; 7])
  = Base32.base32Encode [1; 2; 3; 4; 5] ++ Base32.base32Encode [6; 7].
Proof.
  assert (Ha : Forall is_byte [1; 2; 3; 4; 5]) by forall_lits.
  assert (Hb : Forall is_byte [6; 7]) by forall_lits.
  assert (H5 : Nat.modulo (length [1; 2; 3; 4; 5]) 5 = 0%nat) by reflexivity.
  split; [exact Ha|]. split; [exact Hb|]. split; [exact H5|].
  exact (base32_concat _ _ Ha Hb H5).
Defined.

(** X4: [bigIntToBytes num byteLength] has [byteLength] bytes, each in
    [0, 255], and read big-endian they give [num mod 2^(8 byteLength)]
    (also for negative [num]); the loop never fails. *)
Theorem bigIntToBytes_value num byteLength :
  length (Browser.bigIntToBytes num byteLength) = byteLength /\
  Forall is_byte (Browser.bigIntToBytes num byteLength) /\
  Crypto.be_decode (Browser.bigIntToBytes num byteLength) 0 = num mod 2 ^ (8 * Z.of_nat byteLength).
Proof.
  rewrite bigIntToBytes_be. split; [apply Facts.be_encode_length|].
  split; [apply be_encode_bytes | apply be_decode_encode].
Qed.

(** X5: [uint32ToBytes num] has 4 bytes, each in [0, 255], and read
    big-endian they give [ToUint32(num)] (0 for NaN and the infinities). *)
Theorem uint32ToBytes_value num :
  length (Browser.uint32ToBytes num) = 4%nat /\
  Forall is_byte (Browser.uint32ToBytes num) /\
  Crypto.be_decode (Browser.uint32ToBytes num) 0 = num_ToUint32 num.
Proof.
  rewrite uint32ToBytes_be. split; [apply Facts.be_encode_length|].
  split; [apply be_encode_bytes|]. rewrite be_decode_encode.
  apply Z.mod_small. destruct num as [|z|neg]; cbn [num_ToUint32]; [lia| |lia].
  unfold ToUint32. apply Z.mod_pos_bound. lia.
Qed.

(** X6: with a digit/hyphen activation code, the browser
    [generateOtpSecret] returns a 16-byte key for every serial, registration
    code and policy: it never throws. *)
Theorem browser_generateOtpSecret_total serial act reg policy :
  Spec.digit_hyphen act = true ->
  exists key, Browser.generateOtpSecret serial act reg policy = Ok key /\ length key = 16%nat.
Proof. apply browser_secret_ok. Qed.

Lemma browser_generateOtpSecret_total_witness :
  Spec.digit_hyphen (js "1745-7712-6942-8698") = true /\
  exists key, Browser.generateOtpSecret (js "48244-13456") (js "1745-7712-6942-8698") (js "x-y") []
              = Ok key /\ length key = 16%nat.
Proof.
  assert (H : Spec.digit_hyphen (js "1745-7712-6942-8698") = true) by reflexivity.
  split; [exact H | exact (browser_generateOtpSecret_total _ _ _ _ H)].
Defined.

(** X7: the browser [generateOtpSecret] depends on the activation value
    only modulo 2^56, however large it is ([BigInt] is exact), and on a
    registration value below 2^53 (where [parseInt] is exact) only modulo
    2^32: values congruent modulo these give the same key. *)
Theorem browser_secret_wraps serial act act' reg reg' policy a a' r r' :
  Spec.decimal_value (Spec.residue act) = Some a ->
  Spec.decimal_value (Spec.residue act') = Some a' -> a mod 2 ^ 56 = a' mod 2 ^ 56 ->
  Spec.decimal_value (Spec.residue reg) = Some r -> r < 2 ^ 53 ->
  Spec.decimal_value (Spec.residue reg') = Some r' -> r' < 2 ^ 53 -> r mod 2 ^ 32 = r' mod 2 ^ 32 ->
  Browser.generateOtpSecret serial act reg policy = Browser.generateOtpSecret serial act' reg' policy.
Proof.
  intros Ha Ha' Ham Hr Hr53 Hr' Hr53' Hrm.
  unfold Browser.generateOtpSecret, Browser.otpSecretKdfInputs.
  rewrite !residue_browser, (Facts.BigInt_decimal _ _ Ha), (Facts.BigInt_decimal _ _ Ha').
  cbn [bind]. rewrite (Facts.parseInt_decimal _ _ Hr Hr53), (Facts.parseInt_decimal _ _ Hr' Hr53').
  rewrite !bigIntToBytes_be, !uint32ToBytes_be. cbn [num_ToUint32]. unfold ToUint32.
  rewrite Hrm. unfold Browser.u8_slice. rewrite !Facts.be_encode_length.
  rewrite <- (Facts.skip1_be_encode_mod a), <- (Facts.skip1_be_encode_mod a'), Ham.
  reflexivity.
Qed.

Lemma browser_secret_wraps_witness :
  Spec.decimal_value (Spec.residue (js "720575940379279410")) = Some 72057594037927941 /\
  Spec.decimal_value (Spec.residue (js "50")) = Some 5 /\
  72057594037927941 mod 2 ^ 56 = 5 mod 2 ^ 56 /\
  Spec.decimal_value (Spec.residue (js "42949673039")) = Some 4294967303 /\ 4294967303 < 2 ^ 53 /\
  Spec.decimal_value (Spec.residue (js "79")) = Some 7 /\ 7 < 2 ^ 53 /\
  4294967303 mod 2 ^ 32 = 7 mod 2 ^ 32 /\
  Browser.generateOtpSecret (js "1") (js "720575940379279410") (js "42949673039") []
  = Browser.generateOtpSecret (js "1") (js "50") (js "79") [].
Proof.
  assert (H1 : Spec.decimal_value (Spec.residue (js "720575940379279410")) = Some 72057594037927941)
    by reflexivity.
  assert (H2 : Spec.decimal_value (Spec.residue (js "50")) = Some 5) by reflexivity.
  assert (H3 : 72057594037927941 mod 2 ^ 56 = 5 mod 2 ^ 56) by reflexivity.
  assert (H4 : Spec.decimal_value (Spec.residue (js "42949673039")) = Some 4294967303) by reflexivity.
  assert (H4' : 4294967303 < 2 ^ 53) by reflexivity.
  assert (H5 : Spec.decimal_value (Spec.residue (js "79")) = Some 7) by reflexivity.
  assert (H5' : 7 < 2 ^ 53) by reflexivity.
  assert (H6 : 4294967303 mod 2 ^ 32 = 7 mod 2 ^ 32) by reflexivity.
  repeat (split; [assumption|]).
  exact (browser_secret_wraps _ _ _ _ _ _ _ _ _ _ H1 H2 H3 H4 H4' H5 H5' H6).
Defined.

(** X8: inputs accepted by [validateInputs] give a 16-byte browser key;
    their registration residue has a value [r < 10^14], and the Node
    [generateOtpSecret] returns the browser key when [r < 2^32] and raises
    RangeError when [r >= 2^32]. *)
Theorem validated_generation serial act reg accountName issuer policy :
  BrowserUI.validateInputs (BrowserUI.mkInputs serial act reg accountName issuer) = None ->
  (exists key, Browser.generateOtpSecret serial act reg policy = Ok key /\ length key = 16%nat) /\
  exists r, Spec.decimal_value (Spec.residue reg) = Some r /\ 0 <= r < 10 ^ 14 /\
    (r < 2 ^ 32 ->
     Node.generateOtpSecret serial act reg policy = Browser.generateOtpSecret serial act reg policy) /\
    (2 ^ 32 <= r -> Node.generateOtpSecret serial act reg policy = Throw RangeError).
Proof.
  intros Hv. destruct (validate_ok _ Hv) as (_ & Ha & Hg & _ & _ & Hal & Hgl).
  cbn [BrowserUI.activationCode BrowserUI.registrationCode] in *.
  split; [apply browser_secret_ok, Ha|].
  destruct (residue_value reg Hg ltac:(lia)) as (r & Hr & Hr0 & Hrb).
  destruct (residue_value act Ha ltac:(lia)) as (a & Ha' & Ha0 & Hab).
  assert (10 ^ Z.of_nat (length (Spec.normalize reg) - 1) <= 10 ^ 14)
    by (apply Z.pow_le_mono_r; lia).
  assert (10 ^ Z.of_nat (length (Spec.normalize act) - 1) <= 10 ^ 19)
    by (apply Z.pow_le_mono_r; lia).
  exists r. split; [exact Hr|]. split; [lia|]. split.
  - intros Hr32. apply (node_browser_small _ _ _ _ a r Ha'); [lia | exact Hr | exact Hr32].
  - intros H32. exact (node_registration_range _ _ _ _ r Ha Hr H32).
Qed.

Lemma validated_generation_witness :
  BrowserUI.validateInputs (BrowserUI.mkInputs (js "48244-13456") (js "1745-7712-6942-8698")
    (js "12211-49352") (js "alice@example.com") (js "ExampleCorp")) = None /\
  (exists key, Browser.generateOtpSecret (js "48244-13456") (js "1745-7712-6942-8698")
                 (js "12211-49352") [] = Ok key /\ length key = 16%nat) /\
  exists r, Spec.decimal_value (Spec.residue (js "12211-49352")) = Some r /\ 0 <= r < 10 ^ 14 /\
    (r < 2 ^ 32 ->
     Node.generateOtpSecret (js "48244-13456") (js "1745-7712-6942-8698") (js "12211-49352") []
     = Browser.generateOtpSecret (js "48244-13456") (js "1745-7712-6942-8698") (js "12211-49352") []) /\
    (2 ^ 32 <= r ->
     Node.generateOtpSecret (js "48244-13456") (js "1745-7712-6942-8698") (js "12211-49352") []
     = Throw RangeError).
Proof.
  assert (H : BrowserUI.validateInputs (BrowserUI.mkInputs (js "48244-13456") (js "1745-7712-6942-8698")
    (js "12211-49352") (js "alice@example.com") (js "ExampleCorp")) = None) by reflexivity.
  split; [exact H | exact (validated_generation _ _ _ _ _ [] H)].
Defined.

(** X9: [handleFormSubmit] either shows a validation message or shows a
    URI: its catch branch is never reached. *)
Theorem handleFormSubmit_outcome f :
  (exists e, BrowserUI.handleFormSubmit f = BrowserUI.ShowError (BrowserUI.Validation e)) \/
  (exists uri, BrowserUI.handleFormSubmit f = BrowserUI.ShowResult uri).
Proof.
  destruct f as [s a g n iss]. unfold BrowserUI.handleFormSubmit. cbv zeta.
  cbn [BrowserUI.f_serial BrowserUI.f_activationCode BrowserUI.f_registrationCode
       BrowserUI.f_accountName BrowserUI.f_issuer].
  destruct (BrowserUI.validateInputs _) as [e|] eqn:Hv; [left; eauto|right].
  destruct (validate_ok _ Hv) as (_ & Ha & _). cbn [BrowserUI.activationCode] in Ha.
  destruct (browser_secret_ok (trim (BrowserUI.toUSVString s)) _ (trim (BrowserUI.toUSVString g)) [] Ha)
    as (k & Hk & _).
  cbn [BrowserUI.serial BrowserUI.activationCode BrowserUI.registrationCode
       BrowserUI.accountName BrowserUI.issuer].
  rewrite Hk.
  destruct (browser_uri_ok
              (if BrowserUI.truthy (trim (BrowserUI.toUSVString iss))
               then trim (BrowserUI.toUSVString iss) else js "Entrust")
              (trim (BrowserUI.toUSVString n)) k) as (uri & Hu & _).
  - destruct (BrowserUI.truthy _); [apply form_value_well_formed | reflexivity].
  - apply form_value_well_formed.
  - rewrite Hu. eauto.
Qed.

(** X10: for trimmed, validated inputs with a non-empty issuer, the
    command line [main] and the form handler show the same URI when the
    registration value is below 2^32; from 2^32 on, [main] fails with
    RangeError while the form still shows a URI. *)
Theorem main_form_registration s a g n iss e r :
  BrowserUI.validateInputs (BrowserUI.mkInputs s a g n iss) = None ->
  trim (BrowserUI.toUSVString s) = s -> trim (BrowserUI.toUSVString a) = a ->
  trim (BrowserUI.toUSVString g) = g -> trim (BrowserUI.toUSVString n) = n ->
  trim (BrowserUI.toUSVString iss) = iss -> iss <> [] ->
  Spec.decimal_value (Spec.residue g) = Some r ->
  (r < 2 ^ 32 ->
   exists uri, Cli.main [s; a; g; n; iss] e = Cli.Printed uri /\
               BrowserUI.handleFormSubmit (BrowserUI.mkForm s a g n iss) = BrowserUI.ShowResult uri) /\
  (2 ^ 32 <= r ->
   Cli.main [s; a; g; n; iss] e = Cli.Failed RangeError /\
   exists uri, BrowserUI.handleFormSubmit (BrowserUI.mkForm s a g n iss) = BrowserUI.ShowResult uri).
Proof.
  intros Hv Hs Ha Hg Hn Hi Hne Hr.
  destruct (validate_ok _ Hv) as (_ & HA & _ & HN & Hsl & Hal & Hgl).
  cbn [BrowserUI.serial BrowserUI.activationCode BrowserUI.registrationCode BrowserUI.accountName] in *.
  assert (Hwi : URI.isWellFormed iss = true) by (rewrite <- Hi; apply form_value_well_formed).
  assert (Hwn : URI.isWellFormed n = true) by (rewrite <- Hn; apply form_value_well_formed).
  rewrite (form_fields s a g n iss Hs Ha Hg Hn Hi Hne), Hv.
  rewrite main_args; [|apply length_normalize_nonempty; lia ..
                      | destruct n; [discriminate | congruence] | exact Hne].
  destruct (residue_value a HA ltac:(lia)) as (av & Hav & Ha0 & Hab).
  assert (10 ^ Z.of_nat (length (Spec.normalize a) - 1) <= 10 ^ 19)
    by (apply Z.pow_le_mono_r; lia).
  destruct (browser_secret_ok s a g [] HA) as (k & Hk & _).
  destruct (browser_uri_ok iss n k Hwi Hwn) as (uri & Hub & Hun).
  split.
  - intros Hr32. rewrite (node_browser_small s a g [] av r Hav ltac:(lia) Hr Hr32), Hk, Hub, Hun.
    eauto.
  - intros H32. rewrite (node_registration_range s a g [] r HA Hr H32), Hk, Hub. eauto.
Qed.

Lemma main_form_registration_witness :
  BrowserUI.validateInputs (BrowserUI.mkInputs (js "48244-13456") (js "1745-7712-6942-8698")
    (js "12211-49352") (js "alice@example.com") (js "ExampleCorp")) = None /\
  trim (BrowserUI.toUSVString (js "48244-13456")) = js "48244-13456" /\
  trim (BrowserUI.toUSVString (js "1745-7712-6942-8698")) = js "1745-7712-6942-8698" /\
  trim (BrowserUI.toUSVString (js "12211-49352")) = js "12211-49352" /\
  trim (BrowserUI.toUSVString (js "alice@example.com")) = js "alice@example.com" /\
  trim (BrowserUI.toUSVString (js "ExampleCorp")) = js "ExampleCorp" /\ js "ExampleCorp" <> [] /\
  Spec.decimal_value (Spec.residue (js "12211-49352")) = Some 122114935 /\
  (122114935 < 2 ^ 32 ->
   exists uri,
     Cli.main [js "48244-13456"; js "1745-7712-6942-8698"; js "12211-49352"; js "alice@example.com";
               js "ExampleCorp"] (Cli.mkEnv None None None None None) = Cli.Printed uri /\
     BrowserUI.handleFormSubmit (BrowserUI.mkForm (js "48244-13456") (js "1745-7712-6942-8698")
       (js "12211-49352") (js "alice@example.com") (js "ExampleCorp")) = BrowserUI.ShowResult uri) /\
  (2 ^ 32 <= 122114935 ->
   Cli.main [js "48244-13456"; js "1745-7712-6942-8698"; js "12211-49352"; js "alice@example.com";
             js "ExampleCorp"] (Cli.mkEnv None None None None None) = Cli.Failed RangeError /\
   exists uri,
     BrowserUI.handleFormSubmit (BrowserUI.mkForm (js "48244-13456") (js "1745-7712-6942-8698")
       (js "12211-49352") (js "alice@example.com") (js "ExampleCorp")) = BrowserUI.ShowResult uri).
Proof.
  assert (H1 : BrowserUI.validateInputs (BrowserUI.mkInputs (js "48244-13456") (js "1745-7712-6942-8698")
    (js "12211-49352") (js "alice@example.com") (js "ExampleCorp")) = None) by reflexivity.
  assert (H2 : trim (BrowserUI.toUSVString (js "48244-13456")) = js "48244-13456") by reflexivity.
  assert (H3 : trim (BrowserUI.toUSVString (js "1745-7712-6942-8698")) = js "1745-7712-6942-8698")
    by reflexivity.
  assert (H4 : trim (BrowserUI.toUSVString (js "12211-49352")) = js "12211-49352") by reflexivity.
  assert (H5 : trim (BrowserUI.toUSVString (js "alice@example.com")) = js "alice@example.com")
    by reflexivity.
  assert (H6 : trim (BrowserUI.toUSVString (js "ExampleCorp")) = js "ExampleCorp") by reflexivity.
  assert (H7 : js "ExampleCorp" <> []) by discriminate.
  assert (H8 : Spec.decimal_value (Spec.residue (js "12211-49352")) = Some 122114935) by reflexivity.
  repeat (split; [assumption|]).
  exact (main_form_registration _ _ _ _ _ (Cli.mkEnv None None None None None) 122114935
           H1 H2 H3 H4 H5 H6 H7 H8).
Defined.

(** X11: every URI that [generateOtpauthUri] (Node or browser) returns
    for code units [>= 0] has exactly one ['?'], four ['&'], five ['='] and
    no ['#']: the label and the values never add a delimiter. *)
Theorem otpauth_uri_delimiters issuer accountName secret uri :
  Forall (fun c => 0 <= c) issuer -> Forall (fun c => 0 <= c) accountName ->
  (Node.generateOtpauthUri issuer accountName secret = Ok uri \/
   Browser.generateOtpauthUri issuer accountName secret = Ok uri) ->
  count_occ Z.eq_dec uri 63 = 1%nat /\ count_occ Z.eq_dec uri 38 = 4%nat /\
  count_occ Z.eq_dec uri 61 = 5%nat /\ ~ In 35 uri.
Proof.
  intros Hi Ha Hu. rewrite node_browser_uri in Hu. assert (Hu1 : Browser.generateOtpauthUri issuer accountName secret = Ok uri) by (destruct Hu; assumption). clear Hu. rename Hu1 into Hu.
  unfold Browser.generateOtpauthUri in Hu.
  destruct (URI.encodeURIComponent (issuer ++ js ":" ++ accountName)) as [label|] eqn:El;
    [|discriminate].
  cbn [bind] in Hu. injection Hu as <-.
  assert (Hl : plain label).
  { apply (encodeURIComponent_plain_measure _ (issuer ++ js ":" ++ accountName) _ (le_n _)); [|exact El].
    apply Forall_app. split; [exact Hi|]. change (js ":") with [58].
    apply Forall_app. split; [repeat constructor; lia | exact Ha]. }
  assert (Hs : plain (URI.form_urlencode (Base32.base32Encode secret))).
  { apply form_urlencode_plain. eapply Forall_impl; [|apply UriFacts.base32Encode_chars].
    intros c Hc. unfold UriFacts.b32_char in Hc. lia. }
  pose proof (form_urlencode_plain _ Hi) as Hf.
  unfold URI.URLSearchParams_toString. cbn [map fst snd URI.join_amp].
  remember (URI.form_urlencode (Base32.base32Encode secret)) as fb eqn:Efb.
  remember (URI.form_urlencode issuer) as fi eqn:Efi.
  assert (C : forall x, delim x = true ->
              count_occ Z.eq_dec label x = 0%nat /\ count_occ Z.eq_dec fb x = 0%nat /\ count_occ Z.eq_dec fi x = 0%nat)
    by (intros x Hx; repeat split; apply plain_count; assumption).
  destruct (C 35 eq_refl) as (A1 & A2 & A3). destruct (C 38 eq_refl) as (B1 & B2 & B3).
  destruct (C 61 eq_refl) as (D1 & D2 & D3). destruct (C 63 eq_refl) as (E1 & E2 & E3).
  clear C Efb Efi Hl Hs Hf El.
  repeat split; [| | | apply (count_occ_not_In Z.eq_dec)];
    repeat (progress (simpl; rewrite ?count_occ_app, ?A1, ?A2, ?A3, ?B1, ?B2, ?B3,
                            ?D1, ?D2, ?D3, ?E1, ?E2, ?E3));
    reflexivity.
Qed.

Lemma otpauth_uri_delimiters_witness :
  Forall (fun c => 0 <= c) (js "Example Co") /\ Forall (fun c => 0 <= c) (js "alice@example.com") /\
  (Node.generateOtpauthUri (js "Example Co") (js "alice@example.com") (repeat 0 16)
   = Ok (js "otpauth://totp/Example%20Co%3Aalice%40example.com?secret=AAAAAAAAAAAAAAAAAAAAAAAAAA&issuer=Example+Co&algorithm=SHA256&digits=6&period=30") \/
   Browser.generateOtpauthUri (js "Example Co") (js "alice@example.com") (repeat 0 16)
   = Ok (js "otpauth://totp/Example%20Co%3Aalice%40example.com?secret=AAAAAAAAAAAAAAAAAAAAAAAAAA&issuer=Example+Co&algorithm=SHA256&digits=6&period=30")) /\
  let uri := js "otpauth://totp/Example%20Co%3Aalice%40example.com?secret=AAAAAAAAAAAAAAAAAAAAAAAAAA&issuer=Example+Co&algorithm=SHA256&digits=6&period=30" in
  count_occ Z.eq_dec uri 63 = 1%nat /\ count_occ Z.eq_dec uri 38 = 4%nat /\
  count_occ Z.eq_dec uri 61 = 5%nat /\ ~ In 35 uri.
Proof.
  assert (H1 : Forall (fun c => 0 <= c) (js "Example Co")) by forall_lits.
  assert (H2 : Forall (fun c => 0 <= c) (js "alice@example.com")) by forall_lits.
  assert (H3 : Node.generateOtpauthUri (js "Example Co") (js "alice@example.com") (repeat 0 16)
   = Ok (js "otpauth://totp/Example%20Co%3Aalice%40example.com?secret=AAAAAAAAAAAAAAAAAAAAAAAAAA&issuer=Example+Co&algorithm=SHA256&digits=6&period=30") \/
   Browser.generateOtpauthUri (js "Example Co") (js "alice@example.com") (repeat 0 16)
   = Ok (js "otpauth://totp/Example%20Co%3Aalice%40example.com?secret=AAAAAAAAAAAAAAAAAAAAAAAAAA&issuer=Example+Co&algorithm=SHA256&digits=6&period=30"))
    by (left; vm_compute; reflexivity).
  split; [exact H1|]. split; [exact H2|]. split; [exact H3|].
  exact (otpauth_uri_delimiters _ _ _ _ H1 H2 H3).
Defined.

(** X12: [stringToUtf8Bytes] of a string of UTF-16 code units gives bytes
    in [0, 255], at least one and at most three per code unit. *)
Theorem stringToUtf8Bytes_bytes s :
  Forall (fun c => 0 <= c <= 0xFFFF) s ->
  Forall is_byte (Browser.stringToUtf8Bytes s) /\
  (length s <= length (Browser.stringToUtf8Bytes s) <= 3 * length s)%nat.
Proof. intros H. apply (utf8_encode_bytes_measure (length s)); [lia | exact H]. Qed.

Lemma stringToUtf8Bytes_bytes_witness :
  Forall (fun c => 0 <= c <= 0xFFFF) [0x3042; 0xD83D; 0xDE00; 65; 0xDC00] /\
  Forall is_byte (Browser.stringToUtf8Bytes [0x3042; 0xD83D; 0xDE00; 65; 0xDC00]) /\
  (length [0x3042; 0xD83D; 0xDE00; 65; 0xDC00]%Z
   <= length (Browser.stringToUtf8Bytes [0x3042; 0xD83D; 0xDE00; 65; 0xDC00]%Z)
   <= 3 * length [0x3042; 0xD83D; 0xDE00; 65; 0xDC00]%Z)%nat.
Proof.
  assert (H : Forall (fun c => 0 <= c <= 0xFFFF) [0x3042; 0xD83D; 0xDE00; 65; 0xDC00]) by forall_lits.
  split; [exact H | exact (stringToUtf8Bytes_bytes _ H)].
Defined.

(** X13: hyphens can be anywhere in the three codes: codes that are equal
    once hyphens are removed give the same result, in Node and in the
    browser. *)
Theorem hyphen_placement_irrelevant serial serial' act act' reg reg' policy :
  Spec.normalize serial = Spec.normalize serial' -> Spec.normalize act = Spec.normalize act' ->
  Spec.normalize reg = Spec.normalize reg' ->
  Node.generateOtpSecret serial act reg policy = Node.generateOtpSecret serial' act' reg' policy /\
  Browser.generateOtpSecret serial act reg policy = Browser.generateOtpSecret serial' act' reg' policy.
Proof.
  intros Hs Ha Hr.
  unfold Node.generateOtpSecret, Node.otpSecretKdfInputs, Node.parseCode,
    Browser.generateOtpSecret, Browser.otpSecretKdfInputs, Browser.parseCode, replace_hyphens.
  fold (Spec.normalize serial) (Spec.normalize serial') (Spec.normalize act) (Spec.normalize act')
    (Spec.normalize reg) (Spec.normalize reg').
  rewrite Hs, Ha, Hr. split; reflexivity.
Qed.

Lemma hyphen_placement_irrelevant_witness :
  Spec.normalize (js "48244-13456") = Spec.normalize (js "4824413456") /\
  Spec.normalize (js "1745-7712-6942-8698") = Spec.normalize (js "17457712-69428698") /\
  Spec.normalize (js "12211-49352") = Spec.normalize (js "1221149352-") /\
  Node.generateOtpSecret (js "48244-13456") (js "1745-7712-6942-8698") (js "12211-49352") []
  = Node.generateOtpSecret (js "4824413456") (js "17457712-69428698") (js "1221149352-") [] /\
  Browser.generateOtpSecret (js "48244-13456") (js "1745-7712-6942-8698") (js "12211-49352") []
  = Browser.generateOtpSecret (js "4824413456") (js "17457712-69428698") (js "1221149352-") [].
Proof.
  assert (H1 : Spec.normalize (js "48244-13456") = Spec.normalize (js "4824413456")) by reflexivity.
  assert (H2 : Spec.normalize (js "1745-7712-6942-8698") = Spec.normalize (js "17457712-69428698"))
    by reflexivity.
  assert (H3 : Spec.normalize (js "12211-49352") = Spec.normalize (js "1221149352-")) by reflexivity.
  split; [exact H1|]. split; [exact H2|]. split; [exact H3|].
  exact (hyphen_placement_irrelevant _ _ _ _ _ _ [] H1 H2 H3).
Defined.

(** X14: an issuer field that is empty or only white space makes
    [handleFormSubmit] behave as with the issuer ["Entrust"]. *)
Theorem handleFormSubmit_default_issuer s a g n w :
  forallb is_js_whitespace w = true ->
  BrowserUI.handleFormSubmit (BrowserUI.mkForm s a g n w)
  = BrowserUI.handleFormSubmit (BrowserUI.mkForm s a g n (js "Entrust")).
Proof.
  intros Hw. unfold BrowserUI.handleFormSubmit. cbv zeta.
  cbn [BrowserUI.f_serial BrowserUI.f_activationCode BrowserUI.f_registrationCode
       BrowserUI.f_accountName BrowserUI.f_issuer].
  rewrite (whitespace_string_trim w Hw).
  replace (trim (BrowserUI.toUSVString (js "Entrust"))) with (js "Entrust") by reflexivity.
  reflexivity.
Qed.

Lemma handleFormSubmit_default_issuer_witness :
  forallb is_js_whitespace [32; 9; 0x3000] = true /\
  BrowserUI.handleFormSubmit (BrowserUI.mkForm (js "48244-13456") (js "1745-7712-6942-8698")
    (js "12211-49352") (js "alice@example.com") [32; 9; 0x3000])
  = BrowserUI.handleFormSubmit (BrowserUI.mkForm (js "48244-13456") (js "1745-7712-6942-8698")
    (js "12211-49352") (js "alice@example.com") (js "Entrust")).
Proof.
  assert (H : forallb is_js_whitespace [32; 9; 0x3000] = true) by reflexivity.
  split; [exact H | exact (handleFormSubmit_default_issuer _ _ _ _ _ H)].
Defined.

(** X15: with no issuer argument (missing or empty) and [ISSUER] unset
    or empty, [main] behaves as with the issuer ["Entrust"]. *)
Theorem main_default_issuer s a g n e :
  (Cli.ISSUER e = None \/ Cli.ISSUER e = Some []) ->
  Cli.main [s; a; g; n] e = Cli.main [s; a; g; n; js "Entrust"] e /\
  Cli.main [s; a; g; n; []] e = Cli.main [s; a; g; n; js "Entrust"] e.
Proof. intros [H|H]; unfold Cli.main; cbn [nth_error Cli.js_or]; rewrite H; split; reflexivity. Qed.

Lemma main_default_issuer_witness :
  (Cli.ISSUER (Cli.mkEnv None None None None None) = None \/
   Cli.ISSUER (Cli.mkEnv None None None None None) = Some []) /\
  Cli.main [js "48244-13456"; js "1745-7712-6942-8698"; js "12211-49352"; js "alice@example.com"]
    (Cli.mkEnv None None None None None)
  = Cli.main [js "48244-13456"; js "1745-7712-6942-8698"; js "12211-49352"; js "alice@example.com";
              js "Entrust"] (Cli.mkEnv None None None None None) /\
  Cli.main [js "48244-13456"; js "1745-7712-6942-8698"; js "12211-49352"; js "alice@example.com"; []]
    (Cli.mkEnv None None None None None)
  = Cli.main [js "48244-13456"; js "1745-7712-6942-8698"; js "12211-49352"; js "alice@example.com";
              js "Entrust"] (Cli.mkEnv None None None None None).
Proof.
  assert (H : Cli.ISSUER (Cli.mkEnv None None None None None) = None \/
              Cli.ISSUER (Cli.mkEnv None None None None None) = Some []) by (left; reflexivity).
  split; [exact H | exact (main_default_issuer _ _ _ _ _ H)].
Defined.

(** X16: [main] reads from the environment the values the arguments do
    not give: with no arguments and the five variables set, it behaves as
    with these values as arguments, whatever the environment then holds. *)
Theorem main_env_fallback s a g n i e :
  s <> [] -> a <> [] -> g <> [] -> n <> [] -> i <> [] ->
  Cli.main [] (Cli.mkEnv (Some s) (Some a) (Some g) (Some n) (Some i)) = Cli.main [s; a; g; n; i] e.
Proof. intros Hs Ha Hg Hn Hi. destruct s, a, g, n, i; try congruence; reflexivity. Qed.

Lemma main_env_fallback_witness :
  js "48244-13456" <> [] /\ js "1745-7712-6942-8698" <> [] /\ js "12211-49352" <> [] /\
  js "alice@example.com" <> [] /\ js "ExampleCorp" <> [] /\
  Cli.main [] (Cli.mkEnv (Some (js "48244-13456")) (Some (js "1745-7712-6942-8698"))
                 (Some (js "12211-49352")) (Some (js "alice@example.com")) (Some (js "ExampleCorp")))
  = Cli.main [js "48244-13456"; js "1745-7712-6942-8698"; js "12211-49352"; js "alice@example.com";
              js "ExampleCorp"] (Cli.mkEnv None None None None (Some (js "Other"))).
Proof.
  assert (H1 : js "48244-13456" <> []) by discriminate.
  assert (H2 : js "1745-7712-6942-8698" <> []) by discriminate.
  assert (H3 : js "12211-49352" <> []) by discriminate.
  assert (H4 : js "alice@example.com" <> []) by discriminate.
  assert (H5 : js "ExampleCorp" <> []) by discriminate.
  repeat (split; [assumption|]).
  exact (main_env_fallback _ _ _ _ _ (Cli.mkEnv None None None None (Some (js "Other"))) H1 H2 H3 H4 H5).
Defined.

(** X17: with at most three arguments and [ACCOUNT_NAME] unset or empty,
    [main] prints the usage message and derives nothing. *)
Theorem main_missing_account args e :
  (length args <= 3)%nat -> (Cli.ACCOUNT_NAME e = None \/ Cli.ACCOUNT_NAME e = Some []) ->
  Cli.main args e = Cli.Usage.
Proof.
  intros Hl Hn. unfold Cli.main. cbv zeta.
  replace (Cli.js_or (nth_error args 3) (Cli.ACCOUNT_NAME e)) with (Cli.ACCOUNT_NAME e)
    by (rewrite (proj2 (nth_error_None args 3) ltac:(lia)); reflexivity).
  destruct Hn as [-> | ->];
  destruct (Cli.js_or (nth_error args 0) (Cli.SERIAL e)) as [[|]|],
    (Cli.js_or (nth_error args 1) (Cli.ACTIVATION_CODE e)) as [[|]|],
    (Cli.js_or (nth_error args 2) (Cli.REGISTRATION_CODE e)) as [[|]|]; reflexivity.
Qed.

Lemma main_missing_account_witness :
  (length [js "48244-13456"; js "1745-7712-6942-8698"; js "12211-49352"] <= 3)%nat /\
  (Cli.ACCOUNT_NAME (Cli.mkEnv None None None (Some []) None) = None \/
   Cli.ACCOUNT_NAME (Cli.mkEnv None None None (Some []) None) = Some []) /\
  Cli.main [js "48244-13456"; js "1745-7712-6942-8698"; js "12211-49352"]
    (Cli.mkEnv None None None (Some []) None) = Cli.Usage.
Proof.
  assert (H1 : (length [js "48244-13456"; js "1745-7712-6942-8698"; js "12211-49352"] <= 3)%nat)
    by (cbn; lia).
  assert (H2 : Cli.ACCOUNT_NAME (Cli.mkEnv None None None (Some []) None) = None \/
               Cli.ACCOUNT_NAME (Cli.mkEnv None None None (Some []) None) = Some [])
    by (right; reflexivity).
  split; [exact H1|]. split; [exact H2|].
  exact (main_missing_account _ _ H1 H2).
Defined.
